(** * Invoice generator (B-I.py): tax computation and totals

    A shallow embedding of [InvoiceGenerator._compute_item_details],
    [_create_item_details_table], [_create_total_row] and
    [_create_amount_in_words], together with the fragment of Python's
    [decimal] module (default context: 28 significant digits,
    ROUND_HALF_EVEN, traps InvalidOperation / DivisionByZero / Overflow)
    those methods rely on, the [.2f] format of the totals row and
    [locale.format_string] as far as the amount-in-words line reaches it.

    Python objects live in a store: every dict of the program (the party
    records and each line item) is a location, so that the in-place writes
    of [_compute_item_details] and any sharing between the records are
    visible in the model. *)

From Stdlib Require Import ZArith NArith QArith Qpower Floats Ascii String List Lia.
From stdpp Require Import gmap strings list fin_maps.
From Stdlib Require Import Qabs.

Set Warnings "-inexact-float".
Open Scope Z_scope.

(** ** Exceptions and results *)

(** The exception classes the modelled code can raise. *)
Inductive exc : Type :=
| KeyError (key : string)      (* d[key] on a dict without that key *)
| TypeError                    (* Decimal(None), Decimal * str, ... *)
| InvalidOperation             (* decimal.InvalidOperation (trapped) *)
| Overflow.                    (* decimal.Overflow (trapped) *)

Inductive result (A : Type) : Type :=
| Ok (a : A)
| Raise (e : exc).
Arguments Ok {A} a.
Arguments Raise {A} e.

Definition rbind {A B} (r : result A) (f : A -> result B) : result B :=
  match r with
  | Ok a => f a
  | Raise e => Raise e
  end.

(** ** The decimal module *)

Module decimal.

(** A [Decimal] is a triple (sign, coefficient, exponent) denoting
    (-1)^sign * coefficient * 10^exponent, or a special value.  NaNs carry a
    diagnostic payload. *)
Inductive Decimal : Type :=
| DFin (sign : bool) (coeff : N) (exp : Z)
| DInf (sign : bool)
| DNaN (sign : bool) (signaling : bool) (payload : N).

(** The default context. *)
Definition prec : Z := 28.
Definition Emax : Z := 999999.
Definition Emin : Z := -999999.
Definition Etiny : Z := Emin - prec + 1.
Definition Etop : Z := Emax - prec + 1.

(** [ndigits c] is [len(str(c))]: the number of decimal digits of the
    coefficient, 1 for zero. *)
Fixpoint ndigits_fuel (fuel : nat) (c : N) : Z :=
  match fuel with
  | O => 1
  | S fuel' => if (c <? 10)%N then 1 else 1 + ndigits_fuel fuel' (c / 10)%N
  end.

Definition ndigits (c : N) : Z := ndigits_fuel (N.to_nat (N.size c)) c.

Definition pow10 (k : Z) : N := (10 ^ Z.to_N k)%N.

(** ROUND_HALF_EVEN on a coefficient from which the last [drop] digits are
    removed: the quotient, incremented when the removed part is more than
    half a unit, or exactly half with an odd quotient. *)
Definition round_half_even (c : N) (drop : Z) : N :=
  let q := (c / pow10 drop)%N in
  let r := (c mod pow10 drop)%N in
  let half := (5 * pow10 (drop - 1))%N in
  if (half <? r)%N then (q + 1)%N
  else if (r =? half)%N && N.odd q then (q + 1)%N
  else q.

(** [Decimal._fix]: round a finite result to the context precision.  The
    signals Rounded, Inexact, Subnormal, Underflow and Clamped are not
    trapped in the default context, Overflow is. *)
Definition fix_finite (s : bool) (c : N) (e : Z) : result Decimal :=
  if (c =? 0)%N then Ok (DFin s 0 (Z.min (Z.max e Etiny) Emax))
  else
    let exp_min0 := ndigits c + e - prec in
    if Etop <? exp_min0 then Raise Overflow
    else
      let exp_min := Z.max exp_min0 Etiny in
      if e <? exp_min then
        let digits := ndigits c + e - exp_min in
        let '(c1, e1) := if digits <? 0 then (1%N, exp_min - 1) else (c, e) in
        let coeff := round_half_even c1 (exp_min - e1) in
        let '(coeff', exp_min') :=
          if prec <? ndigits coeff then ((coeff / 10)%N, exp_min + 1)
          else (coeff, exp_min) in
        if Etop <? exp_min' then Raise Overflow
        else Ok (DFin s coeff' exp_min')
      else Ok (DFin s c e).

(** [Decimal._fix_nan]: a payload longer than the precision keeps its last
    [prec] digits. *)
Definition fix_nan (s : bool) (payload : N) : Decimal :=
  DNaN s false (payload mod pow10 prec)%N.

(** [Decimal._check_nans]: a signaling NaN operand raises, a quiet NaN
    operand is the result (the left operand first). *)
Definition check_nans (a b : Decimal) : option (result Decimal) :=
  match a, b with
  | DNaN _ true _, _ => Some (Raise InvalidOperation)
  | _, DNaN _ true _ => Some (Raise InvalidOperation)
  | DNaN s false p, _ => Some (Ok (fix_nan s p))
  | _, DNaN s false p => Some (Ok (fix_nan s p))
  | _, _ => None
  end.

Definition is_zero (a : Decimal) : bool :=
  match a with
  | DFin _ c _ => (c =? 0)%N
  | _ => false
  end.

Definition sign_of (a : Decimal) : bool :=
  match a with
  | DFin s _ _ | DInf s | DNaN s _ _ => s
  end.

Definition signed (s : bool) (c : N) : Z :=
  if s then - Z.of_N c else Z.of_N c.

(** The exact sum of two finite operands, as an integer multiple of
    10^min(e1, e2). *)
Definition aligned_sum (s1 : bool) (c1 : N) (e1 : Z) (s2 : bool) (c2 : N) (e2 : Z) : Z :=
  let e := Z.min e1 e2 in
  signed s1 (c1 * pow10 (e1 - e))%N + signed s2 (c2 * pow10 (e2 - e))%N.

(** [Decimal.__mul__]. *)
Definition mul (a b : Decimal) : result Decimal :=
  match check_nans a b with
  | Some r => r
  | None =>
    let s := xorb (sign_of a) (sign_of b) in
    match a, b with
    | DFin _ c1 e1, DFin _ c2 e2 => fix_finite s (c1 * c2)%N (e1 + e2)
    | DInf _, _ => if is_zero b then Raise InvalidOperation else Ok (DInf s)
    | _, _ => if is_zero a then Raise InvalidOperation else Ok (DInf s)
    end
  end.

(** [Decimal.__add__]: the operands are aligned on the smaller exponent and
    added exactly, then the sum is rounded.  An exact zero sum is negative
    only when both operands are negative (rounding is not ROUND_FLOOR). *)
Definition add (a b : Decimal) : result Decimal :=
  match check_nans a b with
  | Some r => r
  | None =>
    match a, b with
    | DFin s1 c1 e1, DFin s2 c2 e2 =>
      let e := Z.min e1 e2 in
      let z := aligned_sum s1 c1 e1 s2 c2 e2 in
      if z =? 0 then fix_finite (s1 && s2) 0 e
      else fix_finite (z <? 0) (Z.abs_N z) e
    | DInf s1, DInf s2 =>
      if Bool.eqb s1 s2 then Ok (DInf s1) else Raise InvalidOperation
    | DInf s1, _ => Ok (DInf s1)
    | _, _ => Ok b
    end
  end.

Definition copy_negate (a : Decimal) : Decimal :=
  match a with
  | DFin s c e => DFin (negb s) c e
  | DInf s => DInf (negb s)
  | DNaN s g p => DNaN (negb s) g p
  end.

(** [Decimal.__sub__]: NaNs are checked on the operands as given, then
    [self + other.copy_negate()]. *)
Definition sub (a b : Decimal) : result Decimal :=
  match check_nans a b with
  | Some r => r
  | None => add a (copy_negate b)
  end.

(** [Decimal(int)]. *)
Definition of_int (z : Z) : Decimal := DFin (z <? 0) (Z.abs_N z) 0.

(** [Decimal.from_float]: the exact value of the double.  A finite double
    m * 2^e is n / 2^k in lowest terms and becomes n * 5^k * 10^(-k). *)
Fixpoint strip_twos (fuel : nat) (m : N) (k : Z) : N * Z :=
  match fuel with
  | O => (m, k)
  | S fuel' =>
    if (0 <? k) && N.even m then strip_twos fuel' (m / 2)%N (k - 1)
    else (m, k)
  end.

Definition of_spec_float (f : spec_float) : Decimal :=
  match f with
  | S754_zero s => DFin s 0 0
  | S754_infinity s => DInf s
  | S754_nan => DNaN false false 0
  | S754_finite s m e =>
    if 0 <=? e then DFin s (Npos m * 2 ^ Z.to_N e)%N 0
    else
      let '(n, k) := strip_twos (Z.to_nat (- e)) (Npos m) (- e) in
      DFin s (n * 5 ^ Z.to_N k)%N (- k)
  end.

Definition from_float (f : float) : Decimal := of_spec_float (Prim2SF f).

(** The value of a finite decimal as a rational number. *)
Definition to_Q (a : Decimal) : Q :=
  match a with
  | DFin s c e => inject_Z (signed s c) * Qpower (10 # 1) e
  | _ => 0
  end.

Definition is_finite (a : Decimal) : bool :=
  match a with
  | DFin _ _ _ => true
  | _ => false
  end.

(** Numerical equality of two decimals that are not NaN ([Decimal._cmp]
    compared with 0). *)
Definition eq_value (a b : Decimal) : bool :=
  match a, b with
  | DFin s1 c1 e1, DFin s2 c2 e2 =>
    let e := Z.min e1 e2 in
    signed s1 (c1 * pow10 (e1 - e))%N =? signed s2 (c2 * pow10 (e2 - e))%N
  | DInf s1, DInf s2 => Bool.eqb s1 s2
  | _, _ => false
  end.

(** *** Results that need no rounding, results that cannot overflow *)

(** A coefficient and exponent that [fix_finite] returns unchanged. *)
Definition fits (c : N) (e : Z) : bool :=
  (ndigits c <=? prec) && (Etiny <=? e) && (e <=? Etop).

(** The exact product, respectively the exact sum or difference, needs no
    rounding. *)
Definition product_fits (a b : Decimal) : bool :=
  match a, b with
  | DFin _ c1 e1, DFin _ c2 e2 => fits (c1 * c2)%N (e1 + e2)
  | _, _ => false
  end.

Definition sum_fits (a b : Decimal) : bool :=
  match a, b with
  | DFin s1 c1 e1, DFin s2 c2 e2 =>
    fits (Z.abs_N (aligned_sum s1 c1 e1 s2 c2 e2)) (Z.min e1 e2)
  | _, _ => false
  end.

Definition difference_fits (a b : Decimal) : bool := sum_fits a (copy_negate b).

(** [smallb B d]: [d] is finite, its exponent is at most [B] and its
    magnitude is below [10^B]. *)
Definition smallb (B : Z) (d : Decimal) : bool :=
  match d with
  | DFin _ c e => (e <=? B) && (c <? pow10 (B - e))%N
  | _ => false
  end.

(** *** Decimal(str)

    The numeric-string grammar of the module, on ASCII strings: surrounding
    whitespace is stripped and underscores are removed, then the text is
    an optional sign followed by digits with an optional fraction and an
    optional exponent, or [Inf]/[Infinity], or [NaN]/[sNaN] with optional
    payload digits (letters in either case). *)

Definition is_space (a : ascii) : bool :=
  let n := nat_of_ascii a in
  ((9 <=? n)%nat && (n <=? 13)%nat) || ((28 <=? n)%nat && (n <=? 32)%nat).

Definition is_digit (a : ascii) : bool :=
  let n := nat_of_ascii a in (48 <=? n)%nat && (n <=? 57)%nat.

Definition digit_val (a : ascii) : N := N.of_nat (nat_of_ascii a - 48).

Definition lower (a : ascii) : ascii :=
  let n := nat_of_ascii a in
  if (65 <=? n)%nat && (n <=? 90)%nat then ascii_of_nat (n + 32) else a.

Fixpoint lstrip (l : list ascii) : list ascii :=
  match l with
  | a :: l' => if is_space a then lstrip l' else l
  | [] => []
  end.

Definition strip (l : list ascii) : list ascii :=
  rev (lstrip (rev (lstrip l))).

Definition remove_underscores (l : list ascii) : list ascii :=
  List.filter (fun a => negb (Ascii.eqb a "_")) l.

(** The longest prefix of digits and what follows it. *)
Fixpoint span_digits (l : list ascii) : list ascii * list ascii :=
  match l with
  | a :: l' =>
    if is_digit a then let '(ds, r) := span_digits l' in (a :: ds, r)
    else ([], l)
  | [] => ([], [])
  end.

(** [int(digits)], 0 for the empty string. *)
Definition digits_val (ds : list ascii) : N :=
  fold_left (fun acc a => (10 * acc + digit_val a)%N) ds 0%N.

Definition parse_sign (l : list ascii) : bool * list ascii :=
  match l with
  | "-"%char :: l' => (true, l')
  | "+"%char :: l' => (false, l')
  | _ => (false, l)
  end.

(** The exponent part: nothing, or [E], an optional sign and at least one
    digit, up to the end of the text. *)
Definition parse_exponent (l : list ascii) : option Z :=
  match l with
  | [] => Some 0
  | a :: l' =>
    if Ascii.eqb (lower a) "e" then
      let '(s, l'') := parse_sign l' in
      match span_digits l'' with
      | ((_ :: _) as ds, []) => Some (signed s (digits_val ds))
      | _ => None
      end
    else None
  end.

Definition parse_number (s : bool) (l : list ascii) : option Decimal :=
  let '(ip, r) := span_digits l in
  let '(fp, r') :=
    match r with
    | "."%char :: r1 => span_digits r1
    | _ => ([], r)
    end in
  match ip ++ fp with
  | [] => None
  | ds =>
    match parse_exponent r' with
    | Some e => Some (DFin s (digits_val ds) (e - Z.of_nat (length fp)))
    | None => None
    end
  end.

Definition parse_special (s : bool) (l : list ascii) : option Decimal :=
  let w := string_of_list_ascii (map lower l) in
  if (w =? "inf")%string || (w =? "infinity")%string then Some (DInf s)
  else
    let '(g, r) :=
      match map lower l with
      | "s"%char :: r => (true, r)
      | r => (false, r)
      end in
    match r with
    | "n"%char :: "a"%char :: "n"%char :: diag =>
      match span_digits diag with
      | (ds, []) => Some (DNaN s g (digits_val ds))
      | _ => None
      end
    | _ => None
    end.

Definition of_string (v : string) : result Decimal :=
  let l := remove_underscores (strip (list_ascii_of_string v)) in
  let '(s, r) := parse_sign l in
  match parse_number s r with
  | Some d => Ok d
  | None =>
    match parse_special s r with
    | Some d => Ok d
    | None => Raise InvalidOperation
    end
  end.

End decimal.

Import decimal.

(** ** Python values *)

(** The values a dict of the program holds: [None], ints, floats, strings
    and decimals. *)
Inductive pyval : Type :=
| PNone
| PInt (z : Z)
| PFloat (f : float)
| PStr (s : string)
| PDec (d : Decimal).

(** [Decimal(value)]: the constructor is exact (it does not round to the
    context precision). *)
Definition Decimal_new (v : pyval) : result Decimal :=
  match v with
  | PNone => Raise TypeError
  | PInt z => Ok (of_int z)
  | PFloat f => Ok (from_float f)
  | PStr s => of_string s
  | PDec d => Ok d
  end.

(** The numeric values, as decimals, for comparison. *)
Definition numeric (v : pyval) : option Decimal :=
  match v with
  | PInt z => Some (of_int z)
  | PFloat f => Some (from_float f)
  | PDec d => Some d
  | _ => None
  end.

Definition is_snan (v : pyval) : bool :=
  match v with
  | PDec (DNaN _ true _) => true
  | _ => false
  end.

Definition is_nan (d : Decimal) : bool :=
  match d with
  | DNaN _ _ _ => true
  | _ => false
  end.

(** [a == b].  Strings compare by content, numbers by value (a NaN equals
    nothing, a signaling decimal NaN raises), [None] equals itself, values
    of unrelated types differ. *)
Definition py_eq (a b : pyval) : result bool :=
  match a, b with
  | PNone, PNone => Ok true
  | PStr s, PStr t => Ok (s =? t)%string
  | _, _ =>
    match numeric a, numeric b with
    | Some x, Some y =>
      if is_snan a || is_snan b then Raise InvalidOperation
      else if is_nan x || is_nan y then Ok false
      else Ok (eq_value x y)
    | _, _ => Ok false
    end
  end.

(** [a * b] and [a + b] with a [Decimal] on the left, as the program uses
    them: an int on the right is converted, any other right operand is a
    TypeError.  (No other left operand occurs: the program multiplies and
    adds values it has just stored as decimals.) *)
Definition py_mul (a b : pyval) : result pyval :=
  match a, b with
  | PDec x, PDec y => rbind (mul x y) (fun d => Ok (PDec d))
  | PDec x, PInt z => rbind (mul x (of_int z)) (fun d => Ok (PDec d))
  | _, _ => Raise TypeError
  end.

Definition py_add (a b : pyval) : result pyval :=
  match a, b with
  | PDec x, PDec y => rbind (add x y) (fun d => Ok (PDec d))
  | PDec x, PInt z => rbind (add x (of_int z)) (fun d => Ok (PDec d))
  | _, _ => Raise TypeError
  end.

(** ** The object store *)

(** Every dict of the program is an object with an identity.  The store maps
    object identities to dict contents; an identity the store does not hold
    denotes an empty dict. *)
Definition loc := positive.
Abbreviation dict := (gmap string pyval).
Abbreviation heap := (gmap loc (gmap string pyval)).

Definition read (h : heap) (l : loc) (k : string) : option pyval :=
  (h !!! l) !! k.

Definition write (l : loc) (k : string) (v : pyval) (h : heap) : heap :=
  <[l := <[k := v]> (h !!! l)]> h.

(** A sequence of writes to one object. *)
Definition writes (l : loc) (ws : list (string * pyval)) (h : heap) : heap :=
  fold_left (fun h' kv => write l kv.1 kv.2 h') ws h.

Definition dwrites (ws : list (string * pyval)) (d : dict) : dict :=
  fold_left (fun d' kv => <[kv.1 := kv.2]> d') ws d.

(** Computations that read and write the store and may raise.  A raised
    exception keeps the store as the statements before it left it. *)
Definition M (A : Type) : Type := heap -> result A * heap.

Definition ret {A} (a : A) : M A := fun h => (Ok a, h).

Definition bind {A B} (m : M A) (f : A -> M B) : M B :=
  fun h =>
    match m h with
    | (Ok a, h') => f a h'
    | (Raise e, h') => (Raise e, h')
    end.

Definition lift {A} (r : result A) : M A := fun h => (r, h).

(** [d[k]] *)
Definition getitem (l : loc) (k : string) : M pyval :=
  fun h =>
    match read h l k with
    | Some v => (Ok v, h)
    | None => (Raise (KeyError k), h)
    end.

(** [d[k] = v] *)
Definition setitem (l : loc) (k : string) (v : pyval) : M unit :=
  fun h => (Ok tt, write l k v h).

Declare Scope py_scope.
Delimit Scope py_scope with py.
Notation "x <- m ;; k" := (bind m (fun x => k))
  (at level 100, m at next level, right associativity) : py_scope.
Notation "m ;;; k" := (bind m (fun _ => k))
  (at level 100, right associativity) : py_scope.
Open Scope py_scope.

(** [for x in xs: body(x)] *)
Fixpoint for_each {A} (xs : list A) (body : A -> M unit) : M unit :=
  match xs with
  | [] => ret tt
  | x :: xs' => body x ;;; for_each xs' body
  end.

(** ** InvoiceGenerator *)

(** The attributes set by [__init__].  The five records and the items are
    references to dicts held by the caller; [item_details] is the list of
    item references, in the caller's order. *)
Record InvoiceGenerator : Type := {
  seller_details : loc;
  billing_details : loc;
  shipping_details : loc;
  order_details : loc;
  invoice_details : loc;
  item_details : list loc;
  reverse_charge : string;
  signature_image_path : string;
  output_filename : string
}.

Section Generator.

Variable self : InvoiceGenerator.

(** [Decimal(0.09)] and [Decimal(0.18)]: the decimal expansion of the
    double nearest to the literal. *)
Definition rate_cgst : Decimal := from_float 0.09.
Definition rate_igst : Decimal := from_float 0.18.

(** The condition of the [if]: [and] evaluates the city comparison only
    when the states are equal. *)
Definition same_jurisdiction : M bool :=
  bs <- getitem (billing_details self) "state" ;;
  ss <- getitem (shipping_details self) "state" ;;
  st <- lift (py_eq bs ss) ;;
  if st : bool then
    bc <- getitem (billing_details self) "city" ;;
    sc <- getitem (shipping_details self) "city" ;;
    lift (py_eq bc sc)
  else ret false.

(** The body of the loop of [_compute_item_details]. *)
Definition compute_item (item : loc) : M unit :=
  up <- getitem item "unit_price" ;;
  a <- lift (Decimal_new up) ;;
  q <- getitem item "quantity" ;;
  b <- lift (Decimal_new q) ;;
  ab <- lift (mul a b) ;;
  di <- getitem item "discount" ;;
  c <- lift (Decimal_new di) ;;
  net <- lift (sub ab c) ;;
  setitem item "net_amount" (PDec net) ;;;
  same <- same_jurisdiction ;;
  if same : bool then
    setitem item "tax_type" (PStr "CGST") ;;;
    setitem item "tax_rate" (PDec rate_cgst) ;;;
    n1 <- getitem item "net_amount" ;;
    t <- lift (py_mul n1 (PDec rate_cgst)) ;;
    setitem item "tax_amount" t ;;;
    n2 <- getitem item "net_amount" ;;
    t2 <- getitem item "tax_amount" ;;
    tot <- lift (py_add n2 t2) ;;
    setitem item "total_amount" tot ;;;
    n3 <- getitem item "net_amount" ;;
    ts <- lift (py_mul n3 (PDec rate_cgst)) ;;
    setitem item "tax_amount_sgst" ts ;;;
    n4 <- getitem item "net_amount" ;;
    ts2 <- getitem item "tax_amount_sgst" ;;
    tots <- lift (py_add n4 ts2) ;;
    setitem item "total_amount_sgst" tots
  else
    setitem item "tax_type" (PStr "IGST") ;;;
    setitem item "tax_rate" (PDec rate_igst) ;;;
    n1 <- getitem item "net_amount" ;;
    t <- lift (py_mul n1 (PDec rate_igst)) ;;
    setitem item "tax_amount" t ;;;
    n2 <- getitem item "net_amount" ;;
    t2 <- getitem item "tax_amount" ;;
    tot <- lift (py_add n2 t2) ;;
    setitem item "total_amount" tot ;;;
    setitem item "tax_amount_sgst" (PDec (of_int 0)) ;;;
    setitem item "total_amount_sgst" (PDec (of_int 0)).

Definition _compute_item_details : M unit :=
  for_each (item_details self) compute_item.

(** The rows of the item table ([data] in [_create_item_details_table]):
    the header, then one row per item with its 1-based index. *)
Definition table_header : list pyval :=
  map PStr ["SI. No"; "Description"; "Unit Price"; "Qty"; "Net Amount";
            "Tax Rate"; "Tax Type"; "Tax Amount"; "Total Amount"]%string.

Definition table_row (index : nat) (item : loc) : M (list pyval) :=
  d <- getitem item "description" ;;
  up <- getitem item "unit_price" ;;
  q <- getitem item "quantity" ;;
  n <- getitem item "net_amount" ;;
  r <- getitem item "tax_rate" ;;
  ty <- getitem item "tax_type" ;;
  t <- getitem item "tax_amount" ;;
  tot <- getitem item "total_amount" ;;
  ret [PInt (Z.of_nat index + 1); d; up; q; n; r; ty; t; tot].

(** [for index, item in enumerate(items): data.append(row)] starting the
    enumeration at [index]. *)
Fixpoint table_rows (index : nat) (items : list loc) : M (list (list pyval)) :=
  match items with
  | [] => ret []
  | item :: items' =>
    row <- table_row index item ;;
    rows <- table_rows (S index) items' ;;
    ret (row :: rows)
  end.

Definition _create_item_details_table_data : M (list (list pyval)) :=
  rows <- table_rows 0 (item_details self) ;;
  ret (table_header :: rows).

(** [sum(xs)] for a list of decimals: the accumulator starts as the int 0,
    and [0 + d] is [d.__radd__(0)], that is [d + Decimal(0)]. *)
Definition sum_step (acc : pyval) (d : Decimal) : result pyval :=
  match acc with
  | PInt z => rbind (add d (of_int z)) (fun r => Ok (PDec r))
  | _ => py_add acc (PDec d)
  end.

Fixpoint py_sum_from (acc : pyval) (ds : list Decimal) : result pyval :=
  match ds with
  | [] => Ok acc
  | d :: ds' => rbind (sum_step acc d) (fun acc' => py_sum_from acc' ds')
  end.

Definition py_sum (ds : list Decimal) : result pyval := py_sum_from (PInt 0) ds.

(** [[Decimal(item['total_amount']) for item in items]] *)
Fixpoint total_amounts (items : list loc) : M (list Decimal) :=
  match items with
  | [] => ret []
  | item :: items' =>
    v <- getitem item "total_amount" ;;
    d <- lift (Decimal_new v) ;;
    ds <- total_amounts items' ;;
    ret (d :: ds)
  end.

(** The [total_amount] local of [_create_total_row]. *)
Definition _create_total_row_total : M pyval :=
  ds <- total_amounts (item_details self) ;;
  lift (py_sum ds).

(** The [total_amount] local of [_create_amount_in_words]. *)
Definition _create_amount_in_words_total : M pyval :=
  ds <- total_amounts (item_details self) ;;
  lift (py_sum ds).

End Generator.

(** ** The effect of one iteration

    One iteration of the loop, described by what it reads and what it
    assigns.  [compute_item_effect] below relates it to [compute_item]. *)

(** The fields one iteration of [_compute_item_details] reads: the three
    inputs of the item and the state and city of the two parties. *)
Record inputs : Type := {
  i_unit_price : option pyval;
  i_quantity : option pyval;
  i_discount : option pyval;
  i_bstate : option pyval;
  i_sstate : option pyval;
  i_bcity : option pyval;
  i_scity : option pyval
}.

(** The seven keys [_compute_item_details] assigns. *)
Definition derived_keys : list string :=
  ["net_amount"; "tax_type"; "tax_rate"; "tax_amount"; "total_amount";
   "tax_amount_sgst"; "total_amount_sgst"]%string.

Definition require (k : string) (o : option pyval) : result pyval :=
  match o with
  | Some v => Ok v
  | None => Raise (KeyError k)
  end.

Definition net_of (i : inputs) : result Decimal :=
  rbind (require "unit_price" (i_unit_price i)) (fun up =>
  rbind (Decimal_new up) (fun a =>
  rbind (require "quantity" (i_quantity i)) (fun q =>
  rbind (Decimal_new q) (fun b =>
  rbind (mul a b) (fun ab =>
  rbind (require "discount" (i_discount i)) (fun di =>
  rbind (Decimal_new di) (fun c =>
  sub ab c))))))).

Definition same_of (i : inputs) : result bool :=
  rbind (require "state" (i_bstate i)) (fun bs =>
  rbind (require "state" (i_sstate i)) (fun ss =>
  rbind (py_eq bs ss) (fun st =>
  if st : bool then
    rbind (require "city" (i_bcity i)) (fun bc =>
    rbind (require "city" (i_scity i)) (fun sc =>
    py_eq bc sc))
  else Ok false))).

(** The outcome of a branch of the [if] and the assignments it performs,
    in order, for the net amount [net]. *)
Definition tax_of (same : bool) (net : Decimal) : result unit * list (string * pyval) :=
  let rate := if same then rate_cgst else rate_igst in
  let w0 := [("tax_type", PStr (if same then "CGST" else "IGST"));
             ("tax_rate", PDec rate)]%string in
  match mul net rate with
  | Raise e => (Raise e, w0)
  | Ok t =>
    match add net t with
    | Raise e => (Raise e, w0 ++ [("tax_amount", PDec t)]%string)
    | Ok tot =>
      (Ok tt,
       w0 ++ [("tax_amount", PDec t); ("total_amount", PDec tot)]%string
          ++ (if same
              then [("tax_amount_sgst", PDec t); ("total_amount_sgst", PDec tot)]
              else [("tax_amount_sgst", PDec (of_int 0));
                    ("total_amount_sgst", PDec (of_int 0))])%string)
    end
  end.

Definition item_effect (i : inputs) : result unit * list (string * pyval) :=
  match net_of i with
  | Raise e => (Raise e, [])
  | Ok net =>
    match same_of i with
    | Raise e => (Raise e, [("net_amount", PDec net)]%string)
    | Ok same =>
      let '(r, ws) := tax_of same net in (r, ("net_amount", PDec net) :: ws)%string
    end
  end.

Definition view (self : InvoiceGenerator) (h : heap) (item : loc) : inputs :=
  {| i_unit_price := read h item "unit_price";
     i_quantity := read h item "quantity";
     i_discount := read h item "discount";
     i_bstate := read h (billing_details self) "state";
     i_sstate := read h (shipping_details self) "state";
     i_bcity := read h (billing_details self) "city";
     i_scity := read h (shipping_details self) "city" |}.

(** ** Conditions used in the statements *)

(** The net amount [a * b - c] needs no rounding: the exact product and
    the exact difference have at most 28 digits, exponents in range. *)
Definition net_fits (a b c : Decimal) : bool :=
  product_fits a b &&
  match mul a b with
  | Ok p => difference_fits p c
  | Raise _ => false
  end.

(** The key whose lookup fails while the condition of the [if] is
    evaluated, if any: the state of billing, then of shipping, and, when the
    states are equal, the city of billing, then of shipping. *)
Definition absent_jurisdiction_key (self : InvoiceGenerator) (h : heap) : option string :=
  match read h (billing_details self) "state" with
  | None => Some "state"%string
  | Some bs =>
    match read h (shipping_details self) "state" with
    | None => Some "state"%string
    | Some ss =>
      match py_eq bs ss with
      | Ok true =>
        match read h (billing_details self) "city",
              read h (shipping_details self) "city" with
        | Some _, Some _ => None
        | _, _ => Some "city"%string
        end
      | _ => None
      end
    end
  end.

Definition is_str (o : option pyval) : bool :=
  match o with
  | Some (PStr _) => true
  | _ => false
  end.

(** Both parties carry a string state and a string city. *)
Definition jurisdiction_strings (self : InvoiceGenerator) (h : heap) : bool :=
  is_str (read h (billing_details self) "state")
  && is_str (read h (shipping_details self) "state")
  && is_str (read h (billing_details self) "city")
  && is_str (read h (shipping_details self) "city").

(** A field that is present and converts to a finite decimal of magnitude
    below 10^1000, of either sign. *)
Definition numeric_field (o : option pyval) : bool :=
  match o with
  | Some v =>
    match Decimal_new v with
    | Ok d => smallb 1000 d
    | Raise _ => false
    end
  | None => false
  end.

Definition numeric_inputs (h : heap) (item : loc) : bool :=
  numeric_field (read h item "unit_price")
  && numeric_field (read h item "quantity")
  && numeric_field (read h item "discount").

(** The keys the caller fills in, and the five records of the invoice. *)
Definition input_keys : list string :=
  ["description"; "unit_price"; "quantity"; "discount"]%string.

Definition records (self : InvoiceGenerator) : list loc :=
  [seller_details self; billing_details self; shipping_details self;
   order_details self; invoice_details self].

(** A field that is present and that [Decimal()] accepts. *)
Definition convertible (o : option pyval) : Prop :=
  exists v d, o = Some v ∧ Decimal_new v = Ok d.

(** [row] is the table row of the item at 0-based position [i]. *)
Definition is_row (h : heap) (i : nat) (item : loc) (row : list pyval) : Prop :=
  exists d up q n r ty t tot,
    row = [PInt (Z.of_nat i + 1); d; up; q; n; r; ty; t; tot]
    ∧ read h item "description" = Some d
    ∧ read h item "unit_price" = Some up
    ∧ read h item "quantity" = Some q
    ∧ read h item "net_amount" = Some n
    ∧ read h item "tax_rate" = Some r
    ∧ read h item "tax_type" = Some ty
    ∧ read h item "tax_amount" = Some t
    ∧ read h item "total_amount" = Some tot.

(** The [total_amount] of every item, converted, in item order. *)
Fixpoint totals_of (h : heap) (items : list loc) : result (list Decimal) :=
  match items with
  | [] => Ok []
  | item :: items' =>
    rbind (require "total_amount" (read h item "total_amount")) (fun v =>
    rbind (Decimal_new v) (fun d =>
    rbind (totals_of h items') (fun ds => Ok (d :: ds))))
  end.

(** ** The sample invoice of the script *)

Module Sample.

Definition seller : dict :=
  <["name" := PStr "Varasiddhi Silk Exports"]>
  (<["address" := PStr "*75, 3rd Cross, Lalbagh Road"]>
  (<["city" := PStr "BENGALURU"]>
  (<["state" := PStr "KARNATAKA"]>
  (<["pincode" := PInt 560027]>
  (<["pan_no" := PStr "AACFV3325K"]>
  (<["gst_registration_no" := PStr "29AACFV3325K1ZY"]> ∅)))))).

Definition party (city state : string) : dict :=
  <["name" := PStr "Madhu B"]>
  (<["city" := PStr city]>
  (<["state" := PStr state]>
  (<["pincode" := PInt 560037]>
  (<["state_ut_code" := PInt 29]> ∅)))).

Definition item (description : string) (unit_price quantity discount : pyval) : dict :=
  <["description" := PStr description]>
  (<["unit_price" := unit_price]>
  (<["quantity" := quantity]>
  (<["discount" := discount]>
  (<["net_amount" := PNone]>
  (<["tax_rate" := PNone]>
  (<["tax_type" := PNone]>
  (<["tax_amount" := PNone]>
  (<["total_amount" := PNone]> ∅)))))))).

Definition shirt : dict := item "Formal Shirt" (PStr "538.10") (PInt 1) (PInt 0).
Definition shipping_charge : dict := item "Shipping Charges" (PStr "30.96") (PInt 1) (PInt 0).

(** Objects 1-5 are the seller, billing, shipping, order and invoice
    records, the items follow from 10. *)
Definition generator (items : list loc) : InvoiceGenerator :=
  {| seller_details := 1%positive; billing_details := 2%positive;
     shipping_details := 3%positive; order_details := 4%positive;
     invoice_details := 5%positive; item_details := items;
     reverse_charge := "No"; signature_image_path := "signature.png";
     output_filename := "invoice.pdf" |}.

Definition store (billing shipping : dict) (items : list dict) : heap :=
  <[1%positive := seller]> (<[2%positive := billing]> (<[3%positive := shipping]>
    (list_to_map (zip (map Pos.of_nat (seq 10 (length items))) items)))).

Definition item_locs (n : nat) : list loc := map Pos.of_nat (seq 10 n).

Definition bengaluru : dict := party "BENGALURU" "KARNATAKA".
Definition mumbai : dict := party "MUMBAI" "MAHARASHTRA".

(** One item, billed and shipped within BENGALURU, KARNATAKA. *)
Definition intra_state (it : dict) : heap := store bengaluru bengaluru [it].
(** One item, billed in KARNATAKA and shipped to MAHARASHTRA. *)
Definition inter_state (it : dict) : heap := store bengaluru mumbai [it].
(** The generator for a single item, object 10. *)
Definition single : InvoiceGenerator := generator (item_locs 1).
(** The first item. *)
Definition first : loc := 10%positive.

(** A 29-digit price, a refund line with a negative price, and a billing
    record without its state. *)
Definition long_price : dict :=
  item "Gold, per gram" (PStr "1.0000000000000000000000000001") (PInt 1) (PInt 0).
Definition refund : dict := item "Refund" (PStr "-538.10") (PInt 1) (PInt 0).
Definition no_state : dict := delete "state"%string bengaluru.

(** The four items of the script. *)
Definition four_items : heap :=
  store bengaluru bengaluru [shirt; shipping_charge; shirt; shipping_charge].
Definition four : InvoiceGenerator := generator (item_locs 4).

End Sample.


(** ** Further notions used in the statements *)

(** The same generator with another item list. *)
Definition with_items (self : InvoiceGenerator) (items : list loc) : InvoiceGenerator :=
  {| seller_details := seller_details self;
     billing_details := billing_details self;
     shipping_details := shipping_details self;
     order_details := order_details self;
     invoice_details := invoice_details self;
     item_details := items;
     reverse_charge := reverse_charge self;
     signature_image_path := signature_image_path self;
     output_filename := output_filename self |}.

(** The eight keys a table row reads, in the order it reads them. *)
Definition table_keys : list string :=
  ["description"; "unit_price"; "quantity"; "net_amount"; "tax_rate";
   "tax_type"; "tax_amount"; "total_amount"]%string.

(** Two stores hold the same values under every key that is not one of
    the seven derived keys. *)
Definition agree_on_inputs (h1 h2 : heap) : Prop :=
  forall l k, k ∉ derived_keys -> read h1 l k = read h2 l k.

(** ** The totals row

    [_create_total_row] returns three flowables: the caption, a spacer and
    the paragraph showing the total, formatted with [.2f]. *)

Module decimal_format.

(** [str(n)] for a natural number. *)
Definition digit_char (d : N) : ascii := ascii_of_N (48 + d).

Fixpoint digits_fuel (fuel : nat) (n : N) (acc : list ascii) : list ascii :=
  match fuel with
  | O => acc
  | S fuel' =>
    let acc' := digit_char (n mod 10) :: acc in
    if (n <? 10)%N then acc' else digits_fuel fuel' (n / 10)%N acc'
  end.

Definition digits_of (n : N) : list ascii :=
  digits_fuel (S (N.to_nat (N.size n))) n [].

(** [Decimal._rescale(exp, ROUND_HALF_EVEN)] on a finite decimal: the
    coefficient of the result, whose exponent is [exp]. *)
Definition rescale (c : N) (e : Z) (exp : Z) : N :=
  if (c =? 0)%N then 0%N
  else if exp <=? e then (c * pow10 (e - exp))%N
  else
    let digits := ndigits c + e - exp in
    let '(c1, e1) := if digits <? 0 then (1%N, exp - 1) else (c, e) in
    round_half_even c1 (exp - e1).

(** The digits before and after the decimal point of a coefficient with
    exponent -2, as [Decimal.__format__] cuts them out of the digit
    string. *)
Definition split_point (ds : list ascii) : list ascii * list ascii :=
  let dotplace := (Z.of_nat (length ds) - 2)%Z in
  if dotplace <? 0 then (["0"%char], repeat "0"%char (Z.to_nat (- dotplace)) ++ ds)
  else
    let ip := take (Z.to_nat dotplace) ds in
    (match ip with [] => ["0"%char] | _ => ip end, drop (Z.to_nat dotplace) ds).

Definition sign_text (s : bool) : list ascii := if s then ["-"%char] else [].

(** [format(d, '.2f')] *)
Definition format_2f (d : Decimal) : string :=
  string_of_list_ascii
    match d with
    | DFin s c e =>
      let '(ip, fp) := split_point (digits_of (rescale c e (-2))) in
      sign_text s ++ ip ++ "."%char :: fp
    | DInf s => sign_text s ++ list_ascii_of_string "Infinity"
    | DNaN s g p =>
      sign_text s ++ list_ascii_of_string (if g then "sNaN" else "NaN")
        ++ (if (p =? 0)%N then [] else digits_of p)
    end.

End decimal_format.

Import decimal_format.

(** Strings of digits, as the parser reads them. *)
Definition all_digits (l : list ascii) : Prop := Forall (fun a => is_digit a = true) l.

(** ** Exceptions of the display code

    The computation raises the exceptions of [exc]; formatting a value
    can raise three more built-in ones. *)
Inductive py_exc : Type :=
| Exc (e : exc)
| ValueError       (* format(str, '.2f'), an incomplete % directive *)
| IndexError       (* val[i] beyond the end of a tuple *)
| OverflowError.   (* float(int) beyond the doubles *)

Inductive outcome (A : Type) : Type :=
| Returns (a : A)
| Raises (e : py_exc).
Arguments Returns {A} a.
Arguments Raises {A} e.

Definition obind {A B} (o : outcome A) (f : A -> outcome B) : outcome B :=
  match o with
  | Returns a => f a
  | Raises e => Raises e
  end.

Definition of_result {A} (r : result A) : outcome A :=
  match r with
  | Ok a => Returns a
  | Raise e => Raises (Exc e)
  end.

(** A method that reads the store and can raise any of these. *)
Definition D (A : Type) : Type := heap -> outcome A * heap.

(** ** format(total, '.2f') *)

(** [float(z)] for an int [z]: the nearest double, ties to even, given by
    its value, which is an integer; OverflowError when that is beyond the
    largest double. *)
Definition float_of_int (z : Z) : outcome Z :=
  let a := Z.abs z in
  let n := Z.log2 a + 1 in
  if n <=? 53 then Returns z
  else
    let k := n - 53 in
    let q := Z.shiftr a k in
    let r := Z.land a (Z.ones k) in
    let half := Z.shiftl 1 (k - 1) in
    let q' := if (half <? r) || ((r =? half) && Z.odd q) then q + 1 else q in
    let v := Z.shiftl q' k in
    if 2 ^ 1024 <=? v then Raises OverflowError else Returns (Z.sgn z * v).

(** [format(f, '.2f')] for a float: the exact value of the double,
    correctly rounded to two places. *)
Definition float_format_2f (f : float) : string :=
  match Prim2SF f with
  | S754_nan => "nan"
  | S754_infinity s => if s then "-inf" else "inf"
  | _ => format_2f (from_float f)
  end%string.

(** [format(total, '.2f')], by the type of [total]: [Decimal.__format__],
    [int.__format__] (which formats [float(total)]), [float.__format__];
    a str does not know the format code [f], and [None] takes no format
    string at all. *)
Definition format_total (total : pyval) : outcome string :=
  match total with
  | PDec d => Returns (format_2f d)
  | PInt z => obind (float_of_int z) (fun v => Returns (format_2f (of_int v)))
  | PFloat f => Returns (float_format_2f f)
  | PStr _ => Raises ValueError
  | PNone => Raises (Exc TypeError)
  end.

(** Flowables, as far as the program builds them: a paragraph is the
    markup text it is made from, a spacer its width and height.  The texts
    built here are bold tags around digits, letters and punctuation, which
    the paragraph parser accepts. *)
Inductive flowable : Type :=
| Paragraph (text : string)
| Spacer (width : Z) (height : float).

(** [reportlab.lib.units.inch] *)
Definition inch : float := 72%float.

Definition _create_total_row (self : InvoiceGenerator) : D (list flowable) :=
  fun h =>
    let '(total_amount, h') := _create_total_row_total self h in
    (obind (of_result total_amount) (fun total_amount =>
     obind (format_total total_amount) (fun text =>
     Returns [Paragraph "<b>TOTAL:</b>";
              Spacer 1 (0.2 * inch)%float;
              Paragraph ("<b>" ++ text ++ "</b>")])), h').

(** ** locale.format_string

    [_create_amount_in_words] formats the total with
    [locale.format_string('%a', total_amount, grouping=True)]. *)

Module locale.

Definition one_of (chars : string) (a : ascii) : bool :=
  existsb (Ascii.eqb a) (list_ascii_of_string chars).

(** [_percent_re], the directives the module knows:
    [%(?:\((?P<key>.*?)\))?(?P<modifiers>[-#0-9 +*.hlL]*?)[eEfFgGdiouxXcrs%]] *)
Definition is_modifier (a : ascii) : bool := one_of "-#0123456789 +*.hlL" a.

Definition is_conversion (a : ascii) : bool := one_of "eEfFgGdiouxXcrs%" a.

Definition newline : ascii := ascii_of_nat 10.

(** The modifiers and the conversion at the head of [l]: a modifier is
    never a conversion, so the lazy [*?] takes modifiers up to the first
    character that is none, which has to be a conversion. *)
Fixpoint match_tail (l : list ascii) : option (list ascii * ascii * list ascii) :=
  match l with
  | [] => None
  | a :: l' =>
    if is_conversion a then Some ([], a, l')
    else if is_modifier a then
      match match_tail l' with
      | Some (m, c, rest) => Some (a :: m, c, rest)
      | None => None
      end
    else None
  end.

(** After an opening parenthesis: the key (lazy, no newline in it), the
    closing parenthesis, and the rest of the directive. *)
Fixpoint match_key (l : list ascii)
  : option (list ascii * list ascii * ascii * list ascii) :=
  match l with
  | [] => None
  | a :: l' =>
    let longer :=
      if Ascii.eqb a newline then None
      else match match_key l' with
           | Some (key, m, c, rest) => Some (a :: key, m, c, rest)
           | None => None
           end in
    if Ascii.eqb a ")" then
      match match_tail l' with
      | Some (m, c, rest) => Some ([], m, c, rest)
      | None => longer
      end
    else longer
  end.

(** A match of the pattern: its text ([group()]) and its modifiers. *)
Record percent_match : Type := {
  group : list ascii;
  modifiers : list ascii
}.

(** The match that starts at a [%], given what follows that character,
    with what is left after it.  Without the key group an opening
    parenthesis matches nothing, being neither modifier nor conversion. *)
Definition match_percent (l : list ascii) : option (percent_match * list ascii) :=
  match l with
  | [] => None
  | a :: l' =>
    if Ascii.eqb a "(" then
      match match_key l' with
      | Some (key, m, c, rest) =>
        Some ({| group := "%"%char :: "("%char :: key ++ ")"%char :: m ++ [c];
                 modifiers := m |}, rest)
      | None => None
      end
    else
      match match_tail l with
      | Some (m, c, rest) =>
        Some ({| group := "%"%char :: m ++ [c]; modifiers := m |}, rest)
      | None => None
      end
  end.

(** [_percent_re.finditer(f)]: the matches from left to right; [skip]
    counts the characters of the last match still to be passed over. *)
Fixpoint finditer_from (skip : nat) (f : list ascii) : list percent_match :=
  match f with
  | [] => []
  | a :: f' =>
    match skip with
    | S n => finditer_from n f'
    | O =>
      if Ascii.eqb a "%" then
        match match_percent f' with
        | Some (m, rest) => m :: finditer_from (length f' - length rest) f'
        | None => finditer_from 0 f'
        end
      else finditer_from 0 f'
    end
  end.

Definition finditer (f : string) : list percent_match :=
  finditer_from 0 (list_ascii_of_string f).

(** [_percent_re.sub('%s', f)] *)
Fixpoint sub_from (skip : nat) (f : list ascii) : list ascii :=
  match f with
  | [] => []
  | a :: f' =>
    match skip with
    | S n => sub_from n f'
    | O =>
      if Ascii.eqb a "%" then
        match match_percent f' with
        | Some (_, rest) => "%"%char :: "s"%char :: sub_from (length f' - length rest) f'
        | None => a :: sub_from 0 f'
        end
      else a :: sub_from 0 f'
    end
  end.

Definition sub (f : string) : string :=
  string_of_list_ascii (sub_from 0 (list_ascii_of_string f)).

(** *** [fmt % ()]

    With an empty tuple there is no argument to take: [%%] gives a percent
    sign and every other directive raises. *)

Definition PY_SSIZE_T_MAX : Z := 2 ^ 63 - 1.
Definition INT_MAX : Z := 2 ^ 31 - 1.

Definition is_flag (a : ascii) : bool := one_of "-+ #0" a.

Fixpoint skip_flags (l : list ascii) : list ascii :=
  match l with
  | a :: l' => if is_flag a then skip_flags l' else l
  | [] => []
  end.

(** The further digits of a width or precision whose value so far is
    [acc]: what follows them, or [None] when the number exceeds [max]. *)
Fixpoint number (max acc : Z) (l : list ascii) : option (list ascii) :=
  match l with
  | a :: l' =>
    if is_digit a then
      let d := Z.of_N (digit_val a) in
      if (max - d) / 10 <? acc then None else number max (acc * 10 + d) l'
    else Some l
  | [] => Some []
  end.

Definition digits (max : Z) (l : list ascii) : option (list ascii) :=
  match l with
  | a :: l' => if is_digit a then number max (Z.of_N (digit_val a)) l' else Some l
  | [] => Some []
  end.

(** The exception a directive raises, given the text after its [%] (which
    does not start with a second [%]): a key asks for a mapping and [*]
    for an argument (TypeError), as does the conversion once it is
    reached; a number too big or the end of the format before the
    conversion is a ValueError. *)
Definition directive_error (l : list ascii) : py_exc :=
  match l with
  | [] => ValueError
  | a :: _ =>
    if Ascii.eqb a "(" then Exc TypeError
    else
      match skip_flags l with
      | [] => ValueError
      | b :: l1 =>
        if Ascii.eqb b "*" then Exc TypeError
        else
          match digits PY_SSIZE_T_MAX (b :: l1) with
          | None | Some [] => ValueError
          | Some (c :: l2) =>
            let after_precision :=
              if Ascii.eqb c "." then
                match l2 with
                | d :: _ => if Ascii.eqb d "*" then Raises (Exc TypeError)
                            else match digits INT_MAX l2 with
                                 | Some l3 => Returns l3
                                 | None => Raises ValueError
                                 end
                | [] => Raises ValueError
                end
              else Returns (c :: l2) in
            match after_precision with
            | Raises e => e
            | Returns [] => ValueError
            | Returns (d :: l3) =>
              if one_of "hlL" d then
                match l3 with
                | [] => ValueError
                | _ :: _ => Exc TypeError
                end
              else Exc TypeError
            end
          end
      end
  end.

Fixpoint percent_empty (fmt : list ascii) : outcome (list ascii) :=
  match fmt with
  | [] => Returns []
  | a :: rest =>
    if Ascii.eqb a "%" then
      match rest with
      | b :: rest' =>
        if Ascii.eqb b "%" then obind (percent_empty rest') (fun r => Returns ("%"%char :: r))
        else Raises (directive_error rest)
      | [] => Raises ValueError
      end
    else obind (percent_empty rest) (fun r => Returns (a :: r))
  end.

Section FormatString.

(** Two operations are left open, and what is proved holds whatever they
    do: [_format], which formats one value by one directive and localizes
    the digits, and [%] on a tuple that has arguments. *)
Variable _format : list ascii -> pyval -> bool -> bool -> list pyval -> outcome string.
Variable percent_args : string -> list string -> outcome string.

Definition percent (fmt : string) (args : list string) : outcome string :=
  match args with
  | [] => obind (percent_empty (list_ascii_of_string fmt))
            (fun r => Returns (string_of_list_ascii r))
  | _ :: _ => percent_args fmt args
  end.

Definition count_star (m : list ascii) : nat :=
  length (List.filter (fun a => Ascii.eqb a "*") m).

(** The loop over [percents] for a tuple [val], from index [i]. *)
Fixpoint new_val (percents : list percent_match) (val : list pyval) (i : nat)
    (grouping monetary : bool) : outcome (list string) :=
  match percents with
  | [] => Returns []
  | perc :: percents' =>
    if Ascii.eqb (List.last (group perc) "%"%char) "%" then
      obind (new_val percents' val i grouping monetary) (fun vs =>
      Returns ("%"%string :: vs))
    else
      let starcount := count_star (modifiers perc) in
      match val !! i with
      | None => Raises IndexError
      | Some v =>
        obind (_format (group perc) v grouping monetary
                 (take starcount (drop (S i) val))) (fun formatted =>
        obind (new_val percents' val (i + (1 + starcount)) grouping monetary) (fun vs =>
        Returns (formatted :: vs)))
      end
  end.

(** [format_string(f, val, grouping, monetary)] for a [val] that is
    neither a mapping nor a tuple, as every [pyval] is. *)
Definition format_string (f : string) (val : pyval) (grouping monetary : bool)
  : outcome string :=
  let percents := finditer f in
  let new_f := sub f in
  obind (new_val percents [val] 0 grouping monetary) (fun vs =>
  percent new_f vs).

End FormatString.

End locale.

Section AmountInWords.

Variable _format : list ascii -> pyval -> bool -> bool -> list pyval -> outcome string.
Variable percent_args : string -> list string -> outcome string.

Definition _create_amount_in_words (self : InvoiceGenerator) : D flowable :=
  fun h =>
    let '(total_amount, h') := _create_amount_in_words_total self h in
    (obind (of_result total_amount) (fun total_amount =>
     obind (locale.format_string _format percent_args "%a" total_amount true false)
       (fun words =>
     Returns (Paragraph ("<b>Amount in Words:</b> " ++ words ++ " only")))), h').

End AmountInWords.

(** ** The grand total, in the words of the specification

    "Grand total = sum of all LineItems' total_amount": the totals of the
    items, added to zero one after the other, each addition at the
    precision of the decimal context. *)
Definition spec_grand_total (totals : list Decimal) : result Decimal :=
  fold_left (fun acc d => rbind acc (fun a => add a d)) totals (Ok (of_int 0)).

(** The exact sum of the values of the totals. *)
Definition exact_sum (totals : list Decimal) : Q :=
  fold_right (fun d q => to_Q d + q)%Q 0%Q totals.

(** No addition of [spec_grand_total], from the accumulator [acc] on,
    needs rounding. *)
Fixpoint additions_fit (acc : Decimal) (totals : list Decimal) : bool :=
  match totals with
  | [] => true
  | d :: totals' =>
    sum_fits acc d
    && match add acc d with
       | Ok a => additions_fit a totals'
       | Raise _ => false
       end
  end.

(** [totals] are the items' [total_amount] fields, converted, in item
    order. *)
Definition item_totals (h : heap) (items : list loc) (totals : list Decimal) : Prop :=
  Forall2 (fun x d => exists v, read h x "total_amount" = Some v ∧ Decimal_new v = Ok d)
    items totals.

(** ** Further sample data *)

Module Cases.

(** An item whose unit price is [None], and parties without a city. *)
Definition unpriced : dict := Sample.item "Gift wrap" PNone (PInt 1) (PInt 0).
Definition no_city (party : dict) : dict := delete "city"%string party.

(** Three items, the second one unpriced. *)
Definition three : InvoiceGenerator := Sample.generator (Sample.item_locs 3).
Definition three_items : heap :=
  Sample.store Sample.bengaluru Sample.bengaluru
    [Sample.shirt; unpriced; Sample.shipping_charge].

(** One shirt, billed in KARNATAKA and shipped to MAHARASHTRA, neither
    party having a city. *)
Definition no_cities : heap :=
  Sample.store (no_city Sample.bengaluru) (no_city Sample.mumbai) [Sample.shirt].

(** Two items whose totals are given to the cent, 586.53 and 33.75. *)
Definition two : InvoiceGenerator := Sample.generator (Sample.item_locs 2).
Definition to_the_cent : heap :=
  Sample.store Sample.bengaluru Sample.bengaluru
    [<["total_amount" := PStr "586.53"]> Sample.shirt;
     <["total_amount" := PStr "33.75"]> Sample.shipping_charge].

End Cases.

(** * Properties *)

(** ** The store *)

Lemma read_write_eq l k v (h : heap) : read (write l k v h) l k = Some v.
Proof.
  unfold read, write. rewrite lookup_total_insert_eq. apply lookup_insert_eq.
Qed.

Lemma read_write_ne_key l l' k k' v (h : heap) :
  k ≠ k' -> read (write l k v h) l' k' = read h l' k'.
Proof.
  intros Hk. unfold read, write.
  destruct (decide (l = l')) as [->|Hl].
  - rewrite lookup_total_insert_eq. by rewrite lookup_insert_ne.
  - by rewrite lookup_total_insert_ne.
Qed.

Lemma read_write_ne_loc l l' k k' v (h : heap) :
  l ≠ l' -> read (write l k v h) l' k' = read h l' k'.
Proof.
  intros Hl. unfold read, write. by rewrite lookup_total_insert_ne.
Qed.

Lemma lookup_write_ne l l' k v (h : heap) :
  l ≠ l' -> write l k v h !! l' = h !! l'.
Proof. intros Hl. unfold write. by rewrite lookup_insert_ne. Qed.

Lemma writes_cons l kv ws h : writes l (kv :: ws) h = writes l ws (write l kv.1 kv.2 h).
Proof. reflexivity. Qed.

Lemma writes_app l ws1 ws2 h : writes l (ws1 ++ ws2) h = writes l ws2 (writes l ws1 h).
Proof. unfold writes. apply fold_left_app. Qed.

Lemma writes_dwrites l ws (h : heap) :
  ws ≠ [] -> writes l ws h = <[l := dwrites ws (h !!! l)]> h.
Proof.
  revert h. induction ws as [|kv ws IH]; intros h Hne; [done|].
  rewrite writes_cons. destruct ws as [|kv' ws].
  - reflexivity.
  - rewrite IH by done. unfold write.
    rewrite lookup_total_insert_eq, insert_insert_eq. reflexivity.
Qed.

Lemma lookup_total_writes l ws (h : heap) :
  writes l ws h !!! l = dwrites ws (h !!! l).
Proof.
  destruct ws as [|kv ws]; [done|].
  rewrite writes_dwrites by done. apply lookup_total_insert_eq.
Qed.

Lemma lookup_writes_ne l l' ws (h : heap) :
  l ≠ l' -> writes l ws h !! l' = h !! l'.
Proof.
  intros Hl. revert h. induction ws as [|kv ws IH]; intros h; [done|].
  rewrite writes_cons, IH. by apply lookup_write_ne.
Qed.

Lemma lookup_dwrites_ne ws (d : dict) k :
  k ∉ ws.*1 -> dwrites ws d !! k = d !! k.
Proof.
  revert d. induction ws as [|[k' v] ws IH]; intros d Hk; [done|].
  cbn in Hk. apply not_elem_of_cons in Hk as [Hk1 Hk2].
  cbn. unfold dwrites in IH. rewrite IH by done. by rewrite lookup_insert_ne.
Qed.

Lemma read_writes_ne l l' ws (h : heap) k :
  k ∉ ws.*1 -> read (writes l ws h) l' k = read h l' k.
Proof.
  intros Hk. unfold read. destruct (decide (l = l')) as [->|Hl].
  - rewrite lookup_total_writes. by apply lookup_dwrites_ne.
  - unfold lookup_total, map_lookup_total. by rewrite lookup_writes_ne.
Qed.

(** Writing the same values again changes nothing. *)
Lemma dwrites_lookup_last ws (d : dict) k :
  dwrites ws d !! k =
    match list_find (fun kv => kv.1 = k) (reverse ws) with
    | Some (_, kv) => Some kv.2
    | None => d !! k
    end.
Proof.
  revert d. induction ws as [|[k' v] ws IH] using rev_ind; intros d; [done|].
  unfold dwrites. rewrite fold_left_app. cbn. rewrite reverse_snoc. cbn.
  destruct (decide (k' = k)) as [->|Hne].
  - by rewrite lookup_insert_eq.
  - rewrite lookup_insert_ne by done. fold (dwrites ws d). rewrite IH.
    destruct (list_find _ (reverse ws)) as [[? ?]|]; done.
Qed.

Lemma dwrites_idem ws (d : dict) : dwrites ws (dwrites ws d) = dwrites ws d.
Proof.
  apply map_eq. intros k. rewrite !dwrites_lookup_last.
  destruct (list_find _ (reverse ws)) as [[? ?]|]; done.
Qed.

Lemma writes_idem l ws (h : heap) : writes l ws (writes l ws h) = writes l ws h.
Proof.
  destruct ws as [|kv ws]; [done|].
  rewrite !writes_dwrites by done.
  rewrite lookup_total_insert_eq, insert_insert_eq. by rewrite dwrites_idem.
Qed.

Lemma writes_comm l l' ws ws' (h : heap) :
  l ≠ l' -> writes l ws (writes l' ws' h) = writes l' ws' (writes l ws h).
Proof.
  intros Hl. destruct ws as [|kv ws]; [done|]. destruct ws' as [|kv' ws']; [done|].
  rewrite !writes_dwrites by done.
  rewrite !lookup_total_insert_ne by done. by apply insert_insert_ne.
Qed.

(** ** The effect of one iteration *)

Section Effect.

Variable self : InvoiceGenerator.

Ltac read_simpl :=
  repeat first
    [ rewrite read_write_eq
    | rewrite read_write_ne_key by discriminate ].

Lemma same_jurisdiction_effect (h : heap) item :
  same_jurisdiction self h = (same_of (view self h item), h).
Proof.
  unfold same_jurisdiction, same_of, view, bind, getitem, lift, ret, rbind, require; cbn.
  repeat case_match; simplify_eq; try reflexivity; congruence.
Qed.

Lemma bind_getitem {B} l k (f : pyval -> M B) (h : heap) :
  bind (getitem l k) f h =
    match read h l k with
    | Some v => f v h
    | None => (Raise (KeyError k), h)
    end.
Proof. unfold bind, getitem. by destruct (read h l k). Qed.

Lemma bind_lift {A B} (r : result A) (f : A -> M B) (h : heap) :
  bind (lift r) f h =
    match r with
    | Ok a => f a h
    | Raise e => (Raise e, h)
    end.
Proof. unfold bind, lift. by destruct r. Qed.

Lemma bind_setitem {B} l k v (f : unit -> M B) (h : heap) :
  bind (setitem l k v) f h = f tt (write l k v h).
Proof. reflexivity. Qed.

Ltac step :=
  lazymatch goal with
  | |- bind (getitem _ _) _ _ = _ => rewrite bind_getitem; read_simpl
  | |- bind (lift _) _ _ = _ => rewrite bind_lift
  | |- bind (setitem _ _ _) _ _ = _ => rewrite bind_setitem
  | |- match rbind ?x _ with _ => _ end = _ =>
    destruct x eqn:?; cbn [rbind require fst snd py_mul py_add]
  | |- match ?x with _ => _ end = _ =>
    destruct x eqn:?; cbn [rbind require fst snd py_mul py_add]
  end.

Lemma view_write_derived (h : heap) l k v item :
  k ∈ derived_keys -> view self (write l k v h) item = view self h item.
Proof.
  intros Hk. unfold view.
  f_equal; apply read_write_ne_key; intros ->;
    apply list_elem_of_In in Hk; cbn in Hk; intuition discriminate.
Qed.

Lemma compute_item_effect (h : heap) item :
  compute_item self item h =
    ((item_effect (view self h item)).1, writes item (item_effect (view self h item)).2 h).
Proof.
  unfold compute_item, item_effect, net_of.
  cbn [view i_unit_price i_quantity i_discount].
  do 8 (step; step; [|reflexivity]).
  step. unfold bind at 1.
  rewrite (same_jurisdiction_effect _ item), view_write_derived
    by (unfold derived_keys; set_solver).
  destruct (same_of (view self h item)) as [[|]|]; [| |reflexivity].
  - unfold tax_of. do 3 step. cbn [py_mul]. do 2 step; [|reflexivity].
    do 3 step. cbn [py_add]. do 2 step; [|reflexivity].
    do 2 step. step. cbn [py_mul]. rewrite Heqr4. cbn [rbind].
    do 3 step. step. cbn [py_add]. rewrite Heqr5. reflexivity.
  - unfold tax_of. do 3 step. cbn [py_mul]. do 2 step; [|reflexivity].
    do 3 step. cbn [py_add]. do 2 step; [|reflexivity].
    reflexivity.
Qed.

(** Only the seven derived keys are assigned. *)
Lemma tax_of_keys same net : Forall (fun kv => kv.1 ∈ derived_keys) (tax_of same net).2.
Proof.
  unfold tax_of, derived_keys.
  destruct (mul net _); [destruct (add net _)|]; destruct same; cbn;
    repeat constructor.
Qed.

Lemma item_effect_keys i : Forall (fun kv => kv.1 ∈ derived_keys) (item_effect i).2.
Proof.
  unfold item_effect.
  destruct (net_of i) as [net|]; [|constructor].
  destruct (same_of i) as [same|].
  - pose proof (tax_of_keys same net) as Hk. destruct (tax_of same net) as [r ws].
    constructor; [|exact Hk]. unfold derived_keys. set_solver.
  - repeat constructor.
Qed.

Lemma read_writes_derived l ws (h : heap) l' k :
  Forall (fun kv => kv.1 ∈ derived_keys) ws -> k ∉ derived_keys ->
  read (writes l ws h) l' k = read h l' k.
Proof.
  intros Hws Hk. apply read_writes_ne. intros Hin.
  apply list_elem_of_fmap in Hin as [kv [-> Hin]].
  rewrite Forall_forall in Hws. by apply Hk, (Hws kv).
Qed.

Lemma view_writes_derived l ws (h : heap) item :
  Forall (fun kv => kv.1 ∈ derived_keys) ws -> view self (writes l ws h) item = view self h item.
Proof.
  intros Hws. unfold view.
  f_equal; apply read_writes_derived; try done;
    intros Hk; apply list_elem_of_In in Hk; cbn in Hk; intuition discriminate.
Qed.

(** *** The loop *)

Lemma for_each_cons x xs (h : heap) :
  for_each (x :: xs) (compute_item self) h =
    match (item_effect (view self h x)).1 with
    | Ok _ => for_each xs (compute_item self) (writes x (item_effect (view self h x)).2 h)
    | Raise e => (Raise e, writes x (item_effect (view self h x)).2 h)
    end.
Proof.
  cbn [for_each]. unfold bind at 1. rewrite compute_item_effect.
  by destruct (item_effect (view self h x)).1.
Qed.

Lemma for_each_view xs (h h' : heap) r item :
  for_each xs (compute_item self) h = (r, h') -> view self h' item = view self h item.
Proof.
  revert h. induction xs as [|x xs IH]; intros h Hrun.
  - by injection Hrun as _ <-.
  - rewrite for_each_cons in Hrun.
    destruct (item_effect (view self h x)).1.
    + rewrite (IH _ Hrun). apply view_writes_derived, item_effect_keys.
    + injection Hrun as _ <-. apply view_writes_derived, item_effect_keys.
Qed.

Lemma for_each_frame_key xs (h h' : heap) r l k :
  for_each xs (compute_item self) h = (r, h') -> k ∉ derived_keys ->
  read h' l k = read h l k.
Proof.
  revert h. induction xs as [|x xs IH]; intros h Hrun Hk.
  - by injection Hrun as _ <-.
  - rewrite for_each_cons in Hrun.
    destruct (item_effect (view self h x)).1.
    + rewrite (IH _ Hrun Hk). apply read_writes_derived; [apply item_effect_keys|done].
    + injection Hrun as _ <-. apply read_writes_derived; [apply item_effect_keys|done].
Qed.

Lemma for_each_frame_loc xs (h h' : heap) r l :
  for_each xs (compute_item self) h = (r, h') -> l ∉ xs -> h' !! l = h !! l.
Proof.
  revert h. induction xs as [|x xs IH]; intros h Hrun Hl.
  - by injection Hrun as _ <-.
  - apply not_elem_of_cons in Hl as [Hne Hl].
    rewrite for_each_cons in Hrun.
    destruct (item_effect (view self h x)).1.
    + rewrite (IH _ Hrun Hl). by apply lookup_writes_ne.
    + injection Hrun as _ <-. by apply lookup_writes_ne.
Qed.

(** Once the assignments of an item are in the store, the rest of the loop
    keeps them there. *)
Lemma for_each_settled xs (h h' : heap) r x :
  for_each xs (compute_item self) h = (r, h') ->
  writes x (item_effect (view self h x)).2 h = h ->
  writes x (item_effect (view self h x)).2 h' = h'.
Proof.
  revert h. induction xs as [|y ys IH]; intros h Hrun Hx.
  - by injection Hrun as _ <-.
  - rewrite for_each_cons in Hrun.
    assert (Hv : view self (writes y (item_effect (view self h y)).2 h) x = view self h x)
      by apply view_writes_derived, item_effect_keys.
    assert (Hs : writes x (item_effect (view self h x)).2
                   (writes y (item_effect (view self h y)).2 h)
                 = writes y (item_effect (view self h y)).2 h).
    { destruct (decide (x = y)) as [->|Hne].
      - apply writes_idem.
      - rewrite writes_comm by done. by rewrite Hx. }
    destruct (item_effect (view self h y)).1.
    + specialize (IH _ Hrun). rewrite Hv in IH. by apply IH.
    + by injection Hrun as _ <-.
Qed.

Lemma for_each_idem xs (h h' : heap) r :
  for_each xs (compute_item self) h = (r, h') ->
  for_each xs (compute_item self) h' = (r, h').
Proof.
  revert h. induction xs as [|x xs IH]; intros h Hrun.
  - by injection Hrun as <- <-.
  - rewrite for_each_cons in Hrun. rewrite for_each_cons.
    set (h1 := writes x (item_effect (view self h x)).2 h) in *.
    assert (Hv1 : view self h1 x = view self h x) by apply view_writes_derived, item_effect_keys.
    assert (H1 : writes x (item_effect (view self h1 x)).2 h1 = h1).
    { rewrite Hv1. apply writes_idem. }
    destruct (item_effect (view self h x)).1 eqn:Hr.
    + rewrite (for_each_view _ _ _ _ x Hrun), Hv1, Hr.
      pose proof (for_each_settled _ _ _ _ x Hrun H1) as Hs.
      rewrite Hv1 in Hs. rewrite Hs. by apply (IH h1).
    + injection Hrun as <- <-. rewrite Hv1, Hr. rewrite Hv1 in H1. by rewrite H1.
Qed.

(** After a run that succeeds, every item holds what its own iteration,
    run on the initial store, assigns. *)
Lemma for_each_item xs (h h' : heap) x :
  for_each xs (compute_item self) h = (Ok tt, h') -> x ∈ xs ->
  (item_effect (view self h x)).1 = Ok tt
  ∧ h' !!! x = dwrites (item_effect (view self h x)).2 (h !!! x).
Proof.
  revert h. induction xs as [|y ys IH]; intros h Hrun Hx; [by apply elem_of_nil in Hx|].
  rewrite for_each_cons in Hrun.
  set (h1 := writes y (item_effect (view self h y)).2 h) in *.
  assert (Hv : view self h1 x = view self h x) by apply view_writes_derived, item_effect_keys.
  destruct (item_effect (view self h y)).1 as [[]|] eqn:Hr; [|done].
  destruct (decide (x ∈ ys)) as [Hin|Hnin].
  - destruct (IH _ Hrun Hin) as [Hok Hd]. rewrite Hv in Hok, Hd. split; [done|].
    rewrite Hd. destruct (decide (x = y)) as [->|Hne].
    + unfold h1. rewrite lookup_total_writes. apply dwrites_idem.
    + unfold h1, lookup_total, map_lookup_total. by rewrite lookup_writes_ne.
  - apply elem_of_cons in Hx as [->|Hx]; [|done]. split; [done|].
    unfold lookup_total, map_lookup_total.
    rewrite (for_each_frame_loc _ _ _ _ _ Hrun Hnin).
    fold (h1 !!! y). apply lookup_total_writes.
Qed.

(** In any run, an item is either not reached or holds what its own
    iteration, run on the initial store, assigns (all of it, or the part
    assigned before that iteration raised). *)
Lemma for_each_item_any xs (h h' : heap) r x :
  for_each xs (compute_item self) h = (r, h') -> x ∈ xs ->
  h' !!! x = h !!! x
  ∨ h' !!! x = dwrites (item_effect (view self h x)).2 (h !!! x).
Proof.
  revert h. induction xs as [|y ys IH]; intros h Hrun Hx; [by apply elem_of_nil in Hx|].
  rewrite for_each_cons in Hrun.
  set (h1 := writes y (item_effect (view self h y)).2 h) in *.
  assert (Hv : view self h1 x = view self h x) by apply view_writes_derived, item_effect_keys.
  assert (H1 : h1 !!! x = h !!! x
               ∨ x = y ∧ h1 !!! x = dwrites (item_effect (view self h x)).2 (h !!! x)).
  { destruct (decide (x = y)) as [->|Hne].
    - right. split; [done|]. apply lookup_total_writes.
    - left. unfold h1, lookup_total, map_lookup_total. by rewrite lookup_writes_ne. }
  destruct (item_effect (view self h y)).1.
  - destruct (decide (x ∈ ys)) as [Hin|Hnin].
    + destruct (IH _ Hrun Hin) as [Hsame|Hown].
      * rewrite Hsame. destruct H1 as [H1|[_ H1]]; [by left|by right].
      * rewrite Hv in Hown. right. rewrite Hown.
        destruct H1 as [->|[_ ->]]; [done|apply dwrites_idem].
    + apply elem_of_cons in Hx as [->|Hx]; [|done].
      unfold lookup_total at 1 3, map_lookup_total.
      rewrite (for_each_frame_loc _ _ _ _ _ Hrun Hnin). fold (h1 !!! y).
      destruct H1 as [H1|[_ H1]]; [by left|by right].
  - injection Hrun as _ <-. destruct H1 as [H1|[_ H1]]; [by left|by right].
Qed.

Lemma for_each_success xs (h : heap) :
  (forall x, x ∈ xs -> (item_effect (view self h x)).1 = Ok tt) ->
  exists h', for_each xs (compute_item self) h = (Ok tt, h').
Proof.
  revert h. induction xs as [|x xs IH]; intros h Hall.
  - by exists h.
  - rewrite for_each_cons, (Hall x) by set_solver.
    apply IH. intros y Hy.
    rewrite view_writes_derived by apply item_effect_keys. apply Hall. set_solver.
Qed.

End Effect.

(** ** Decimal arithmetic *)

Section DecimalFacts.

Local Open Scope N_scope.

Lemma ndigits_fuel_spec fuel c :
  c < 2 ^ N.of_nat fuel -> c ≠ 0 ->
  exists n, ndigits_fuel fuel c = (Z.of_N n + 1)%Z ∧ 10 ^ n <= c ∧ c < 10 ^ (n + 1).
Proof.
  revert c. induction fuel as [|fuel IH]; intros c Hlt Hc.
  - cbn in Hlt. lia.
  - cbn [ndigits_fuel]. destruct (N.ltb_spec c 10) as [Hs|Hs].
    + exists 0. cbn. lia.
    + destruct (IH (c / 10)) as (n & Hn & Hlo & Hhi).
      * apply N.Div0.div_lt_upper_bound.
        rewrite Nat2N.inj_succ, N.pow_succ_r' in Hlt. lia.
      * intros H0. pose proof (N.div_mod' c 10).
        assert (c mod 10 < 10) by (apply N.mod_lt; lia). lia.
      * exists (n + 1). rewrite Hn. split; [lia|].
        rewrite !N.pow_add_r in *. change (10 ^ 1) with 10 in *.
        pose proof (N.div_mod' c 10) as Hdm.
        assert (c mod 10 < 10) by (apply N.mod_lt; lia).
        generalize dependent (10 ^ n). generalize dependent (c / 10).
        generalize dependent (c mod 10). intros. lia.
Qed.

Lemma ndigits_spec c :
  c ≠ 0 ->
  exists n, ndigits c = (Z.of_N n + 1)%Z ∧ 10 ^ n <= c ∧ c < 10 ^ (n + 1).
Proof.
  intros Hc. apply ndigits_fuel_spec; [|done].
  rewrite N2Nat.id. apply N.size_gt.
Qed.

Lemma ndigits_pos c : (1 <= ndigits c)%Z.
Proof.
  destruct (decide (c = 0)) as [->|Hc]; [done|].
  destruct (ndigits_spec c Hc) as (n & -> & _). lia.
Qed.

Lemma pow10_pos k : 0 < pow10 k.
Proof. unfold pow10. apply N.neq_0_lt_0, N.pow_nonzero. lia. Qed.

Lemma pow10_add j k : (0 <= j)%Z -> (0 <= k)%Z -> pow10 (j + k) = pow10 j * pow10 k.
Proof. intros Hj Hk. unfold pow10. by rewrite Z2N.inj_add, N.pow_add_r. Qed.

Lemma pow10_le j k : (j <= k)%Z -> pow10 j <= pow10 k.
Proof. intros Hjk. unfold pow10. apply N.pow_le_mono_r; lia. Qed.

Lemma ndigits_upper c : c < pow10 (ndigits c).
Proof.
  destruct (decide (c = 0)) as [->|Hc]; [done|].
  destruct (ndigits_spec c Hc) as (n & -> & _ & Hhi).
  unfold pow10. by rewrite Z2N.inj_add, N2Z.id by lia.
Qed.

Lemma ndigits_le_of_lt c k : c < pow10 k -> c ≠ 0 -> (ndigits c <= k)%Z.
Proof.
  intros Hlt Hc. destruct (ndigits_spec c Hc) as (n & -> & Hlo & _).
  unfold pow10 in Hlt.
  assert (n < Z.to_N k); [|lia].
  apply (N.pow_lt_mono_r_iff 10); lia.
Qed.

(** A result within the precision and the exponent range is not rounded. *)
Lemma fix_finite_exact s c e :
  (ndigits c <= prec)%Z -> (Etiny <= e)%Z -> (e <= Etop)%Z ->
  fix_finite s c e = Ok (DFin s c e).
Proof.
  intros Hn He1 He2. unfold fix_finite.
  destruct (N.eqb_spec c 0) as [->|Hc].
  - do 2 f_equal. unfold Etiny, Etop, Emax, Emin, prec in *. lia.
  - destruct (Z.ltb_spec Etop (ndigits c + e - prec)); [lia|].
    destruct (Z.ltb_spec e (Z.max (ndigits c + e - prec) Etiny)); [lia|done].
Qed.

End DecimalFacts.

Section DecimalValue.

Lemma ten_neq_0 : ~ (10 # 1 == 0)%Q.
Proof. discriminate. Qed.

Lemma inject_pow10 k : (0 <= k)%Z -> (inject_Z (Z.of_N (pow10 k)) == (10 # 1) ^ k)%Q.
Proof.
  intros Hk. unfold pow10. rewrite N2Z.inj_pow, Z2N.id by done.
  rewrite Zpower_Qpower by done. reflexivity.
Qed.

Lemma signed_mul s1 c1 s2 c2 :
  signed (xorb s1 s2) (c1 * c2) = (signed s1 c1 * signed s2 c2)%Z.
Proof. unfold signed. destruct s1, s2; cbn; lia. Qed.

Lemma signed_scale s c k : signed s (c * k) = (signed s c * Z.of_N k)%Z.
Proof. unfold signed. destruct s; lia. Qed.

Lemma signed_abs z : signed (z <? 0) (Z.abs_N z) = z.
Proof. unfold signed. destruct (Z.ltb_spec z 0); lia. Qed.

Lemma signed_negb s c : signed (negb s) c = (- signed s c)%Z.
Proof. unfold signed. destruct s; cbn; lia. Qed.

Lemma to_Q_rescale s c e e' :
  (e' <= e)%Z ->
  (inject_Z (signed s (c * pow10 (e - e'))) * (10 # 1) ^ e' == to_Q (DFin s c e))%Q.
Proof.
  intros He. cbn [to_Q]. rewrite signed_scale, inject_Z_mult, inject_pow10 by lia.
  replace e with ((e - e') + e')%Z at 2 by lia.
  rewrite Qpower_plus by apply ten_neq_0. ring.
Qed.

Lemma to_Q_copy_negate a : (to_Q (copy_negate a) == - to_Q a)%Q.
Proof.
  destruct a as [s c e| |]; cbn [copy_negate to_Q]; [|reflexivity..].
  rewrite signed_negb, inject_Z_opp. ring.
Qed.

Lemma mul_exact a b :
  product_fits a b = true ->
  exists d, mul a b = Ok d ∧ is_finite d = true ∧ (to_Q d == to_Q a * to_Q b)%Q.
Proof.
  destruct a as [s1 c1 e1| |], b as [s2 c2 e2| |]; try discriminate.
  cbn [product_fits]. unfold fits. rewrite !andb_true_iff. intros [[H1 H2] H3].
  exists (DFin (xorb s1 s2) (c1 * c2) (e1 + e2)). split; [|split; [done|]].
  - cbn [mul check_nans sign_of]. apply fix_finite_exact; lia.
  - cbn [to_Q]. rewrite signed_mul, inject_Z_mult, Qpower_plus by apply ten_neq_0. ring.
Qed.

Lemma add_exact a b :
  sum_fits a b = true ->
  exists d, add a b = Ok d ∧ is_finite d = true ∧ (to_Q d == to_Q a + to_Q b)%Q.
Proof.
  destruct a as [s1 c1 e1| |], b as [s2 c2 e2| |]; try discriminate.
  cbn [sum_fits]. unfold fits. rewrite !andb_true_iff. intros [[H1 H2] H3].
  cbn [add check_nans]. fold (aligned_sum s1 c1 e1 s2 c2 e2).
  assert (Hv : (inject_Z (aligned_sum s1 c1 e1 s2 c2 e2) * (10 # 1) ^ Z.min e1 e2
                == to_Q (DFin s1 c1 e1) + to_Q (DFin s2 c2 e2))%Q).
  { unfold aligned_sum. rewrite inject_Z_plus, Qmult_plus_distr_l.
    rewrite !to_Q_rescale by lia. reflexivity. }
  destruct (Z.eqb_spec (aligned_sum s1 c1 e1 s2 c2 e2) 0) as [Hz|Hz].
  - eexists. split; [apply fix_finite_exact; [done|lia..]|]. split; [done|].
    rewrite <- Hv, Hz. cbn [to_Q]. unfold signed. destruct (s1 && s2); reflexivity.
  - eexists. split; [apply fix_finite_exact; lia|]. split; [done|].
    rewrite <- Hv. cbn [to_Q]. by rewrite signed_abs.
Qed.

Lemma sub_exact a b :
  difference_fits a b = true ->
  exists d, sub a b = Ok d ∧ is_finite d = true ∧ (to_Q d == to_Q a - to_Q b)%Q.
Proof.
  intros Hf. destruct (add_exact _ _ Hf) as (d & Hadd & Hfin & Hv).
  exists d. split; [|split; [done|]].
  - destruct a as [s1 c1 e1| |], b as [s2 c2 e2| |]; try discriminate. exact Hadd.
  - rewrite Hv, to_Q_copy_negate. reflexivity.
Qed.

End DecimalValue.

Section DecimalBounds.

Lemma smallb_spec B s c e :
  smallb B (DFin s c e) = true <-> (e <= B)%Z ∧ (c < pow10 (B - e))%N.
Proof. cbn. rewrite andb_true_iff, Z.leb_le, N.ltb_lt. done. Qed.

Lemma smallb_mono B B' d : (B <= B')%Z -> smallb B d = true -> smallb B' d = true.
Proof.
  intros HB. destruct d as [s c e| |]; try done.
  rewrite !smallb_spec. intros [He Hc]. split; [lia|].
  eapply N.lt_le_trans; [exact Hc|]. apply pow10_le. lia.
Qed.

Lemma smallb_copy_negate B d : smallb B (copy_negate d) = smallb B d.
Proof. by destruct d. Qed.

Lemma round_half_even_le c drop : (round_half_even c drop <= c / pow10 drop + 1)%N.
Proof. unfold round_half_even. repeat case_match; lia. Qed.

Lemma div_pow10_lt c n drop :
  (0 <= drop)%Z -> (drop <= n)%Z -> (c < pow10 n)%N -> (c / pow10 drop < pow10 (n - drop))%N.
Proof.
  intros H0 Hn Hc. apply N.Div0.div_lt_upper_bound.
  rewrite <- pow10_add by lia. by replace (drop + (n - drop))%Z with n by lia.
Qed.

Lemma fix_small s c e B :
  (0 <= B)%Z -> (B <= Emax)%Z -> (e <= B)%Z -> (c < pow10 (B - e))%N ->
  exists d, fix_finite s c e = Ok d ∧ smallb (B + 1) d = true.
Proof.
  intros HB0 HB He Hc. unfold fix_finite.
  destruct (N.eqb_spec c 0) as [->|Hc0].
  { eexists. split; [done|]. apply smallb_spec. split.
    - unfold Etiny, Emin, Emax, prec in *. lia.
    - apply pow10_pos. }
  pose proof (ndigits_le_of_lt _ _ Hc Hc0) as Hn.
  pose proof (ndigits_pos c) as Hn1.
  destruct (Z.ltb_spec Etop (ndigits c + e - prec)) as [Hov|_].
  { unfold Etop, Emax, prec in *. lia. }
  set (exp_min := Z.max (ndigits c + e - prec) Etiny).
  assert (Hem : (exp_min <= B - 28)%Z).
  { unfold exp_min, Etiny, Emin, Emax, prec in *. lia. }
  destruct (Z.ltb_spec e exp_min) as [Hround|_].
  2:{ eexists. split; [done|]. apply smallb_spec. split; [lia|].
      eapply N.lt_le_trans; [exact Hc|]. apply pow10_le. lia. }
  set (digits := (ndigits c + e - exp_min)%Z).
  assert (Hcoeff : exists c1 e1,
    (if digits <? 0 then (1%N, exp_min - 1) else (c, e))%Z = (c1, e1)
    ∧ (round_half_even c1 (exp_min - e1) <= pow10 28)%N).
  { destruct (Z.ltb_spec digits 0) as [Hd|Hd].
    - exists 1%N, (exp_min - 1)%Z. split; [done|].
      etrans; [apply round_half_even_le|].
      replace (exp_min - (exp_min - 1))%Z with 1%Z by lia. by vm_compute.
    - exists c, e. split; [done|].
      etrans; [apply round_half_even_le|].
      assert (c / pow10 (exp_min - e) < pow10 (ndigits c - (exp_min - e)))%N as Hq.
      { apply div_pow10_lt; [lia|unfold digits in Hd; lia|apply ndigits_upper]. }
      assert (pow10 (ndigits c - (exp_min - e)) <= pow10 28)%N.
      { apply pow10_le. unfold exp_min, prec. lia. }
      lia. }
  destruct Hcoeff as (c1 & e1 & -> & Hle).
  set (coeff := round_half_even c1 (exp_min - e1)) in *.
  destruct (Z.ltb_spec prec (ndigits coeff)) as [Hshift|Hshift].
  - destruct (Z.ltb_spec Etop (exp_min + 1)) as [Hov|_].
    { unfold Etop, Emax, prec in *. lia. }
    eexists. split; [done|]. apply smallb_spec. split; [lia|].
    assert (coeff / 10 < pow10 28)%N.
    { apply N.Div0.div_lt_upper_bound.
      assert (pow10 28 < 10 * pow10 28)%N by (by vm_compute). lia. }
    eapply N.lt_le_trans; [done|]. apply pow10_le. lia.
  - destruct (Z.ltb_spec Etop exp_min) as [Hov|_].
    { unfold Etop, Emax, prec in *. lia. }
    eexists. split; [done|]. apply smallb_spec. split; [lia|].
    eapply N.lt_le_trans; [apply ndigits_upper|]. apply pow10_le.
    unfold prec in *. lia.
Qed.

Lemma mul_small B1 B2 a b :
  smallb B1 a = true -> smallb B2 b = true ->
  (0 <= B1 + B2)%Z -> (B1 + B2 <= Emax)%Z ->
  exists d, mul a b = Ok d ∧ smallb (B1 + B2 + 1) d = true.
Proof.
  destruct a as [s1 c1 e1| |], b as [s2 c2 e2| |]; try done.
  rewrite !smallb_spec. intros [He1 Hc1] [He2 Hc2] H0 HB.
  cbn [mul check_nans]. apply fix_small; [done|done|lia|].
  replace (B1 + B2 - (e1 + e2))%Z with ((B1 - e1) + (B2 - e2))%Z by lia.
  rewrite pow10_add by lia. by apply N.mul_lt_mono.
Qed.

Lemma add_small B a b :
  smallb B a = true -> smallb B b = true -> (0 <= B)%Z -> (B + 1 <= Emax)%Z ->
  exists d, add a b = Ok d ∧ smallb (B + 2) d = true.
Proof.
  destruct a as [s1 c1 e1| |], b as [s2 c2 e2| |]; try done.
  rewrite !smallb_spec. intros [He1 Hc1] [He2 Hc2] H0 HB.
  cbn [add check_nans]. fold (aligned_sum s1 c1 e1 s2 c2 e2).
  set (e := Z.min e1 e2).
  replace (B + 2)%Z with ((B + 1) + 1)%Z by lia.
  destruct (Z.eqb_spec (aligned_sum s1 c1 e1 s2 c2 e2) 0) as [Hz|Hz].
  - apply fix_small; [lia|done|lia|apply pow10_pos].
  - apply fix_small; [lia|done|lia|].
    assert (H1 : (c1 * pow10 (e1 - e) < pow10 (B - e))%N).
    { replace (B - e)%Z with ((B - e1) + (e1 - e))%Z by lia.
      rewrite pow10_add by lia. apply N.mul_lt_mono_pos_r; [apply pow10_pos|done]. }
    assert (H2 : (c2 * pow10 (e2 - e) < pow10 (B - e))%N).
    { replace (B - e)%Z with ((B - e2) + (e2 - e))%Z by lia.
      rewrite pow10_add by lia. apply N.mul_lt_mono_pos_r; [apply pow10_pos|done]. }
    assert (H3 : pow10 (B + 1 - e) = (10 * pow10 (B - e))%N).
    { replace (B + 1 - e)%Z with (1 + (B - e))%Z by lia. by rewrite pow10_add by lia. }
    rewrite H3. unfold aligned_sum, signed. fold e.
    destruct s1, s2; lia.
Qed.

Lemma sub_small B a b :
  smallb B a = true -> smallb B b = true -> (0 <= B)%Z -> (B + 1 <= Emax)%Z ->
  exists d, sub a b = Ok d ∧ smallb (B + 2) d = true.
Proof.
  intros Ha Hb H0 HB.
  destruct (add_small B a (copy_negate b)) as (d & Hadd & Hd);
    [done|by rewrite smallb_copy_negate|done..|].
  exists d. split; [|done].
  destruct a as [s1 c1 e1| |], b as [s2 c2 e2| |]; try done.
Qed.

End DecimalBounds.

(** * Main results *)

Section MainResults.

Variable self : InvoiceGenerator.

Lemma total_amounts_pure items (h : heap) :
  total_amounts items h = (totals_of h items, h).
Proof.
  induction items as [|x xs IH]; [done|].
  cbn [total_amounts totals_of]. rewrite bind_getitem.
  destruct (read h x "total_amount") as [v|]; [|done].
  cbn [require rbind]. rewrite bind_lift.
  destruct (Decimal_new v) as [d|]; [|done].
  cbn [rbind]. unfold bind at 1. rewrite IH.
  by destruct (totals_of h xs).
Qed.

(** C9: running [_compute_item_details] again on the store it produced
    gives the same outcome and the same store: every derived field keeps
    its value. *)
Theorem compute_item_details_idempotent (h : heap) :
  _compute_item_details self (_compute_item_details self h).2
  = _compute_item_details self h.
Proof.
  unfold _compute_item_details.
  destruct (for_each (item_details self) (compute_item self) h) as [r h'] eqn:Hrun.
  exact (for_each_idem self _ _ _ _ Hrun).
Qed.

Lemma item_effect_ok i :
  (item_effect i).1 = Ok tt ->
  exists net same t tot,
    net_of i = Ok net ∧ same_of i = Ok same
    ∧ mul net (if same : bool then rate_cgst else rate_igst) = Ok t
    ∧ add net t = Ok tot
    ∧ (item_effect i).2 =
        [("net_amount", PDec net);
         ("tax_type", PStr (if same then "CGST" else "IGST"));
         ("tax_rate", PDec (if same then rate_cgst else rate_igst));
         ("tax_amount", PDec t);
         ("total_amount", PDec tot);
         ("tax_amount_sgst", PDec (if same then t else of_int 0));
         ("total_amount_sgst", PDec (if same then tot else of_int 0))]%string.
Proof.
  unfold item_effect.
  destruct (net_of i) as [net|]; [|done].
  destruct (same_of i) as [same|]; [|done].
  unfold tax_of.
  destruct (mul net _) as [t|] eqn:Hm; [|done].
  destruct (add net t) as [tot|] eqn:Ha; [|done].
  intros _. exists net, same, t, tot. by destruct same.
Qed.

Ltac read_dwrites :=
  cbn [dwrites fold_left fst snd];
  repeat (rewrite lookup_insert_ne by discriminate);
  apply lookup_insert_eq.

(** What a successful run leaves in each item. *)
Lemma compute_postcondition (h h' : heap) x :
  _compute_item_details self h = (Ok tt, h') -> x ∈ item_details self ->
  exists net same t tot,
    net_of (view self h x) = Ok net ∧ same_of (view self h x) = Ok same
    ∧ mul net (if same : bool then rate_cgst else rate_igst) = Ok t
    ∧ add net t = Ok tot
    ∧ read h' x "net_amount" = Some (PDec net)
    ∧ read h' x "tax_type" = Some (PStr (if same then "CGST" else "IGST"))
    ∧ read h' x "tax_rate" = Some (PDec (if same then rate_cgst else rate_igst))
    ∧ read h' x "tax_amount" = Some (PDec t)
    ∧ read h' x "total_amount" = Some (PDec tot)
    ∧ read h' x "tax_amount_sgst" = Some (PDec (if same then t else of_int 0))
    ∧ read h' x "total_amount_sgst" = Some (PDec (if same then tot else of_int 0)).
Proof.
  intros Hrun Hx.
  destruct (for_each_item self _ _ _ _ Hrun Hx) as [Hok Hd].
  destruct (item_effect_ok _ Hok) as (net & same & t & tot & Hn & Hs & Hm & Ha & Hws).
  exists net, same, t, tot. unfold read. rewrite Hd, Hws.
  repeat split; try done; read_dwrites.
Qed.

(** C4 (amended): after a successful run the net amount of an item is
    exactly unit_price * quantity - discount whenever the exact product and
    the exact difference need no rounding in the 28-digit context. *)
Theorem net_amount_exact_when_it_fits (h h' : heap) x up q di a b c :
  _compute_item_details self h = (Ok tt, h') -> x ∈ item_details self ->
  read h x "unit_price" = Some up -> Decimal_new up = Ok a ->
  read h x "quantity" = Some q -> Decimal_new q = Ok b ->
  read h x "discount" = Some di -> Decimal_new di = Ok c ->
  net_fits a b c = true ->
  exists n, read h' x "net_amount" = Some (PDec n)
    ∧ (to_Q n == to_Q a * to_Q b - to_Q c)%Q.
Proof.
  intros Hrun Hx Hup Ha Hq Hb Hdi Hc Hfit.
  destruct (compute_postcondition _ _ _ Hrun Hx)
    as (net & same & t & tot & Hnet & _ & _ & _ & Hread & _).
  exists net. split; [done|].
  unfold net_of, view in Hnet. cbn [i_unit_price i_quantity i_discount] in Hnet.
  rewrite Hup, Hq, Hdi in Hnet. cbn [require rbind] in Hnet.
  rewrite Ha, Hb in Hnet. cbn [rbind] in Hnet.
  unfold net_fits in Hfit. apply andb_true_iff in Hfit as [Hp Hd].
  destruct (mul_exact _ _ Hp) as (p & Hmul & _ & Hpv).
  rewrite Hmul in Hnet, Hd. cbn [rbind] in Hnet. rewrite Hc in Hnet. cbn [rbind] in Hnet.
  destruct (sub_exact _ _ Hd) as (d & Hsub & _ & Hdv).
  rewrite Hsub in Hnet. injection Hnet as <-. by rewrite Hdv, Hpv.
Qed.

(** C6 (amended): when a state or city lookup of the condition fails, and
    the net amount of the first item computes, the method raises KeyError
    for that key after storing the first item's net amount and nothing
    else. *)
Theorem missing_jurisdiction_raises_KeyError (h : heap) x xs net k :
  item_details self = x :: xs ->
  net_of (view self h x) = Ok net ->
  absent_jurisdiction_key self h = Some k ->
  _compute_item_details self h
  = (Raise (KeyError k), write x "net_amount" (PDec net) h).
Proof.
  intros Hitems Hnet Hk. unfold _compute_item_details.
  rewrite Hitems, for_each_cons. unfold item_effect. rewrite Hnet.
  assert (Hsame : same_of (view self h x) = Raise (KeyError k)).
  { unfold absent_jurisdiction_key in Hk. unfold same_of, view.
    cbn [i_bstate i_sstate i_bcity i_scity].
    destruct (read h (billing_details self) "state") as [bs|];
      [|by injection Hk as <-].
    destruct (read h (shipping_details self) "state") as [ss|];
      [|by injection Hk as <-].
    cbn [require rbind]. destruct (py_eq bs ss) as [[|]|]; [|done..].
    cbn [rbind].
    destruct (read h (billing_details self) "city") as [bc|];
      [|by injection Hk as <-].
    destruct (read h (shipping_details self) "city") as [sc|];
      [done|by injection Hk as <-]. }
  by rewrite Hsame.
Qed.

Lemma rate_small same : smallb 0 (if same : bool then rate_cgst else rate_igst) = true.
Proof. by destruct same; vm_compute. Qed.

Lemma numeric_field_inv o :
  numeric_field o = true ->
  exists v d, o = Some v ∧ Decimal_new v = Ok d ∧ smallb 1000 d = true.
Proof.
  unfold numeric_field. destruct o as [v|]; [|done].
  destruct (Decimal_new v) as [d|] eqn:Hd; [|done]. intros Hs. by exists v, d.
Qed.

Lemma is_str_inv o : is_str o = true -> exists s, o = Some (PStr s).
Proof. destruct o as [[]|]; try done. intros _. by eexists. Qed.

Lemma item_effect_numeric (h : heap) x :
  jurisdiction_strings self h = true -> numeric_inputs h x = true ->
  (item_effect (view self h x)).1 = Ok tt.
Proof.
  unfold jurisdiction_strings, numeric_inputs. rewrite !andb_true_iff.
  intros [[[Hbs Hss] Hbc] Hsc] [[Hup Hq] Hdi].
  apply is_str_inv in Hbs as [bs Hbs], Hss as [ss Hss], Hbc as [bc Hbc], Hsc as [sc Hsc].
  apply numeric_field_inv in Hup as (up & a & Hup & Ha & Sa).
  apply numeric_field_inv in Hq as (q & b & Hq & Hb & Sb).
  apply numeric_field_inv in Hdi as (di & c & Hdi & Hc & Sc).
  destruct (mul_small 1000 1000 a b Sa Sb) as (ab & Hab & Sab); [done..|].
  destruct (sub_small 2001 ab c) as (net & Hnet & Snet);
    [done|by apply (smallb_mono 1000)|done..|].
  unfold item_effect, net_of, same_of, view; cbn [i_unit_price i_quantity
    i_discount i_bstate i_sstate i_bcity i_scity].
  rewrite Hup, Hq, Hdi, Hbs, Hss, Hbc, Hsc. cbn [require rbind].
  rewrite Ha, Hb. cbn [rbind]. rewrite Hab. cbn [rbind].
  rewrite Hc. cbn [rbind]. rewrite Hnet. cbn [py_eq rbind].
  assert (Htax : forall same, (tax_of same net).1 = Ok tt).
  { intros same. unfold tax_of.
    destruct (mul_small 2003 0 net _ Snet (rate_small same)) as (t & Ht & St);
      [done..|].
    rewrite Ht.
    destruct (add_small 2004 net t) as (tot & Htot & _);
      [by apply (smallb_mono 2003)|done..|].
    by rewrite Htot. }
  destruct (bs =? ss)%string; cbn [rbind].
  - specialize (Htax (bc =? sc)%string). by destruct (tax_of _ net).
  - specialize (Htax false). by destruct (tax_of false net).
Qed.

Lemma net_of_ok_inv i net :
  net_of i = Ok net ->
  convertible (i_unit_price i) ∧ convertible (i_quantity i) ∧ convertible (i_discount i).
Proof.
  unfold net_of, convertible.
  destruct (i_unit_price i) as [up|]; [|done]. cbn [require rbind].
  destruct (Decimal_new up) as [a|] eqn:Ha; [|done]. cbn [rbind].
  destruct (i_quantity i) as [q|]; [|done]. cbn [require rbind].
  destruct (Decimal_new q) as [b|] eqn:Hb; [|done]. cbn [rbind].
  destruct (mul a b) as [ab|]; [|done]. cbn [rbind].
  destruct (i_discount i) as [di|]; [|done]. cbn [require rbind].
  destruct (Decimal_new di) as [c|] eqn:Hc; [|done].
  intros _. repeat split; by do 2 eexists.
Qed.

(** C7 (amended): the method checks neither sign nor type.  It succeeds
    whenever both parties carry string state and city and the three inputs
    of every item convert to finite decimals below 10^1000 in magnitude, of
    either sign; and it succeeds only if the three inputs of every item are
    present and accepted by [Decimal()]. *)
Theorem compute_accepts_numeric_inputs (h : heap) :
  (jurisdiction_strings self h = true ->
   forallb (numeric_inputs h) (item_details self) = true ->
   exists h', _compute_item_details self h = (Ok tt, h'))
  ∧ (forall h' x,
       _compute_item_details self h = (Ok tt, h') -> x ∈ item_details self ->
       convertible (read h x "unit_price")
       ∧ convertible (read h x "quantity")
       ∧ convertible (read h x "discount")).
Proof.
  split.
  - intros Hj Hall. apply for_each_success. intros x Hx.
    apply item_effect_numeric; [done|].
    rewrite forallb_forall in Hall. by apply Hall, list_elem_of_In.
  - intros h' x Hrun Hx.
    destruct (compute_postcondition _ _ _ Hrun Hx) as (net & _ & _ & _ & Hnet & _).
    exact (net_of_ok_inv _ _ Hnet).
Qed.

(** The eight fields of a table row are present. *)
Lemma table_row_ok (h : heap) i x d up q n r ty t tot :
  read h x "description" = Some d -> read h x "unit_price" = Some up ->
  read h x "quantity" = Some q -> read h x "net_amount" = Some n ->
  read h x "tax_rate" = Some r -> read h x "tax_type" = Some ty ->
  read h x "tax_amount" = Some t -> read h x "total_amount" = Some tot ->
  table_row i x h = (Ok [PInt (Z.of_nat i + 1); d; up; q; n; r; ty; t; tot], h).
Proof.
  intros Hd Hup Hq Hn Hr Hty Ht Htot. unfold table_row.
  rewrite bind_getitem, Hd, bind_getitem, Hup, bind_getitem, Hq, bind_getitem, Hn,
    bind_getitem, Hr, bind_getitem, Hty, bind_getitem, Ht, bind_getitem, Htot.
  reflexivity.
Qed.

Lemma table_rows_ok (h : heap) items idx :
  (forall x, x ∈ items -> exists row, is_row h 0 x row) ->
  exists rows, table_rows idx items h = (Ok rows, h)
    ∧ length rows = length items
    ∧ forall i x, items !! i = Some x ->
        exists row, rows !! i = Some row ∧ is_row h (idx + i) x row.
Proof.
  revert idx. induction items as [|y ys IH]; intros idx Hall.
  - exists []. by repeat split.
  - destruct (Hall y) as (row0 & d & up & q & n & r & ty & t & tot & _ & Hd & Hup
                          & Hq & Hn & Hr & Hty & Ht & Htot); [set_solver|].
    destruct (IH (S idx)) as (rows & Hrows & Hlen & Hnth).
    { intros x Hx. apply Hall. set_solver. }
    eexists (_ :: rows). cbn [table_rows]. unfold bind at 1.
    rewrite (table_row_ok h idx y d up q n r ty t tot) by done.
    unfold bind at 1. rewrite Hrows. split; [reflexivity|]. split; [by cbn; rewrite Hlen|].
    intros [|i] x Hi.
    + injection Hi as <-. eexists. split; [reflexivity|].
      rewrite Nat.add_0_r. by exists d, up, q, n, r, ty, t, tot.
    + destruct (Hnth i x Hi) as (row & Hrow & Hisrow).
      exists row. split; [done|]. by replace (idx + S i)%nat with (S idx + i)%nat by lia.
Qed.

(** What an iteration reads: the record of its item and the billing and
    shipping records. *)
Lemma view_records (h h2 : heap) x :
  h2 !!! x = h !!! x ->
  h2 !!! billing_details self = h !!! billing_details self ->
  h2 !!! shipping_details self = h !!! shipping_details self ->
  view self h2 x = view self h x.
Proof.
  intros Hx Hb Hs. unfold view, read. by rewrite Hx, Hb, Hs.
Qed.

(** C8: in any run, what an item holds afterwards is determined by its own
    iteration alone: the item is untouched, or it holds what its own
    iteration, run on the initial store, assigns.  That iteration depends
    on no other item: on any store that holds the same record for the item
    and the same billing and shipping records, whatever it holds for the
    other items, the iteration has the same outcome and leaves the same
    record.  So when the run succeeds, the item ends up with the record it
    gets in any other successful run, over any item list it is on, that
    starts from the same three records; alone on the invoice, for one.
    When the run succeeds and the items carry a description, the table data
    is the header followed by one row per item, in the order of the item
    list, the first cell of the row at position i (from 0) being i + 1 and
    the others the fields of that item, each item holding what its own
    iteration assigns. *)
Theorem item_table_in_input_order (h : heap) :
  let '(r, h') := _compute_item_details self h in
  (forall x, x ∈ item_details self ->
     h' !!! x = h !!! x ∨ h' !!! x = (compute_item self x h).2 !!! x)
  ∧ (forall x h2,
       h2 !!! x = h !!! x ->
       h2 !!! billing_details self = h !!! billing_details self ->
       h2 !!! shipping_details self = h !!! shipping_details self ->
       (compute_item self x h2).1 = (compute_item self x h).1
       ∧ (compute_item self x h2).2 !!! x = (compute_item self x h).2 !!! x)
  ∧ (r = Ok tt ->
     forall items2 h2 h2' x,
       x ∈ item_details self -> x ∈ items2 ->
       h2 !!! x = h !!! x ->
       h2 !!! billing_details self = h !!! billing_details self ->
       h2 !!! shipping_details self = h !!! shipping_details self ->
       _compute_item_details (with_items self items2) h2 = (Ok tt, h2') ->
       h2' !!! x = h' !!! x)
  ∧ (r = Ok tt ->
     (forall x, x ∈ item_details self -> is_Some (read h x "description")) ->
     exists rows,
       _create_item_details_table_data self h' = (Ok (table_header :: rows), h')
       ∧ length rows = length (item_details self)
       ∧ (forall i x, item_details self !! i = Some x ->
            exists row, rows !! i = Some row ∧ is_row h' i x row)
       ∧ (forall x, x ∈ item_details self ->
            h' !!! x = (compute_item self x h).2 !!! x)).
Proof.
  destruct (_compute_item_details self h) as [r h'] eqn:Hrun. split.
  { intros x Hx. unfold _compute_item_details in Hrun.
    rewrite compute_item_effect. cbn [snd]. rewrite lookup_total_writes.
    exact (for_each_item_any self _ _ _ _ _ Hrun Hx). }
  split.
  { intros x h2 Hx Hb Hs. rewrite !compute_item_effect. cbn [fst snd].
    rewrite !lookup_total_writes, (view_records h h2 x Hx Hb Hs). by rewrite Hx. }
  split.
  { intros -> items2 h2 h2' x Hin Hin2 Hx Hb Hs Hrun2.
    unfold _compute_item_details in Hrun.
    change (for_each items2 (compute_item self) h2 = (Ok tt, h2')) in Hrun2.
    destruct (for_each_item self _ _ _ _ Hrun Hin) as [_ ->].
    destruct (for_each_item self _ _ _ _ Hrun2 Hin2) as [_ ->].
    by rewrite (view_records h h2 x Hx Hb Hs), Hx. }
  intros -> Hdesc.
  destruct (table_rows_ok h' (item_details self) 0) as (rows & Hrows & Hlen & Hnth).
  { intros x Hx.
    destruct (compute_postcondition _ _ _ Hrun Hx)
      as (net & same & t & tot & Hnet & _ & _ & _ & Hn & Hty & Hr & Ht & Htot & _).
    destruct (net_of_ok_inv _ _ Hnet) as ((up & ? & Hup & _) & (q & ? & Hq & _) & _).
    destruct (Hdesc x Hx) as [d Hd].
    cbn [view i_unit_price i_quantity] in Hup, Hq.
    eexists. exists d, up, q. do 5 eexists. split; [reflexivity|].
    unfold _compute_item_details in Hrun.
    rewrite !(for_each_frame_key self _ _ _ _ x _ Hrun)
      by (intros Hk; apply list_elem_of_In in Hk; cbn in Hk; intuition discriminate).
    by repeat split. }
  exists rows. split; [|split; [done|split; [done|]]].
  - unfold _create_item_details_table_data, bind. by rewrite Hrows.
  - intros x Hx. unfold _compute_item_details in Hrun.
    destruct (for_each_item self _ _ _ _ Hrun Hx) as [_ ->].
    rewrite compute_item_effect. cbn [snd]. by rewrite lookup_total_writes.
Qed.

(** C10: [_compute_item_details] changes nothing but the seven derived
    keys of the items: the input fields of every item keep their values,
    every key other than the derived ones keeps its value in every object,
    objects that are not items are untouched (so are the five records when
    they are not themselves items), and the item list, an attribute of the
    generator, is not part of what the method changes. *)
Theorem compute_item_details_frame (h : heap) :
  let h' := (_compute_item_details self h).2 in
  (forall l k, k ∈ input_keys -> read h' l k = read h l k)
  ∧ (forall l k, k ∉ derived_keys -> read h' l k = read h l k)
  ∧ (forall l, l ∉ item_details self -> h' !! l = h !! l)
  ∧ (forall l, l ∈ records self -> l ∉ item_details self -> h' !! l = h !! l).
Proof.
  unfold _compute_item_details.
  destruct (for_each (item_details self) (compute_item self) h) as [r h'] eqn:Hrun.
  cbn. assert (Hkey : forall l k, k ∉ derived_keys -> read h' l k = read h l k).
  { intros l k Hk. exact (for_each_frame_key self _ _ _ _ l k Hrun Hk). }
  assert (Hloc : forall l, l ∉ item_details self -> h' !! l = h !! l).
  { intros l Hl. exact (for_each_frame_loc self _ _ _ _ l Hrun Hl). }
  repeat split; [|done|done|by intros l _; apply Hloc].
  intros l k Hk. apply Hkey. intros Hd.
  apply list_elem_of_In in Hk, Hd. cbn in Hk, Hd. intuition congruence.
Qed.

End MainResults.

(** C1: on the shipping-charge item of the script (30.96, quantity 1, no
    discount, billed and shipped within one city) the method stores tax
    type CGST and net amount 30.96, but a tax amount of
    2.786399999999999896882485473, which is not 30.96 * 0.09 = 2.7864:
    [Decimal(0.09)] is the decimal expansion of a binary double. *)
Theorem cgst_tax_amount_is_not_nine_percent :
  let '(r, h) := _compute_item_details Sample.single
                   (Sample.intra_state Sample.shipping_charge) in
  r = Ok tt
  ∧ read h Sample.first "tax_type" = Some (PStr "CGST")
  ∧ read h Sample.first "net_amount" = Some (PDec (DFin false 3096 (-2)))
  ∧ read h Sample.first "tax_amount"
    = Some (PDec (DFin false 2786399999999999896882485473 (-27)))
  ∧ read h Sample.first "tax_amount_sgst" = read h Sample.first "tax_amount"
  ∧ ~ (to_Q (DFin false 2786399999999999896882485473 (-27))
       == to_Q (DFin false 3096 (-2)) * (9 # 100))%Q.
Proof.
  vm_compute. repeat split. discriminate.
Qed.

(** C2: on the shirt of the script (538.10, quantity 1, no discount)
    billed in KARNATAKA and shipped to MAHARASHTRA the method stores tax
    type IGST, zero split fields and net amount 538.10, but a tax amount of
    96.85799999999999641553394270, which is not 538.10 * 0.18 = 96.858. *)
Theorem igst_tax_amount_is_not_eighteen_percent :
  let '(r, h) := _compute_item_details Sample.single
                   (Sample.inter_state Sample.shirt) in
  r = Ok tt
  ∧ read h Sample.first "tax_type" = Some (PStr "IGST")
  ∧ read h Sample.first "net_amount" = Some (PDec (DFin false 53810 (-2)))
  ∧ read h Sample.first "tax_amount"
    = Some (PDec (DFin false 9685799999999999641553394270 (-26)))
  ∧ read h Sample.first "tax_amount_sgst" = Some (PDec (DFin false 0 0))
  ∧ read h Sample.first "total_amount_sgst" = Some (PDec (DFin false 0 0))
  ∧ ~ (to_Q (DFin false 9685799999999999641553394270 (-26))
       == to_Q (DFin false 53810 (-2)) * (18 # 100))%Q.
Proof.
  vm_compute. repeat split. discriminate.
Qed.

(** C5: scenario A (538.10, quantity 1, no discount, same city and state)
    gives net amount 538.10 and tax type CGST, but tax amount
    48.42899999999999820776697135 and total 586.5289999999999982077669714
    instead of 48.429 and 586.529. *)
Theorem scenario_A_amounts :
  let '(r, h) := _compute_item_details Sample.single
                   (Sample.intra_state Sample.shirt) in
  r = Ok tt
  ∧ read h Sample.first "net_amount" = Some (PDec (DFin false 53810 (-2)))
  ∧ read h Sample.first "tax_type" = Some (PStr "CGST")
  ∧ read h Sample.first "tax_amount"
    = Some (PDec (DFin false 4842899999999999820776697135 (-26)))
  ∧ read h Sample.first "total_amount"
    = Some (PDec (DFin false 5865289999999999982077669714 (-25)))
  ∧ ~ (to_Q (DFin false 4842899999999999820776697135 (-26)) == 48429 # 1000)%Q
  ∧ ~ (to_Q (DFin false 5865289999999999982077669714 (-25)) == 586529 # 1000)%Q.
Proof.
  vm_compute. repeat split; discriminate.
Qed.

(** ** Concrete runs *)

Lemma run_ok (m : result unit * heap) : m.1 = Ok tt -> m = (Ok tt, m.2).
Proof. destruct m as [r h]. cbn. by intros ->. Qed.

(** The two rates: the doubles nearest to 0.09 and 0.18, written out. *)
Example rate_cgst_value :
  rate_cgst = DFin false 899999999999999966693309261245303787291049957275390625 (-55)
  ∧ ~ (to_Q rate_cgst == 9 # 100)%Q.
Proof. vm_compute. split; [reflexivity|discriminate]. Qed.

Example rate_igst_value :
  rate_igst = DFin false 179999999999999993338661852249060757458209991455078125 (-54)
  ∧ ~ (to_Q rate_igst == 18 # 100)%Q.
Proof. vm_compute. split; [reflexivity|discriminate]. Qed.

(** The four items of the script: both totals are
    1240.550799999999996209298913. *)
Example four_items_totals :
  let h := (_compute_item_details Sample.four Sample.four_items).2 in
  (_create_total_row_total Sample.four h).1
  = Ok (PDec (DFin false 1240550799999999996209298913 (-24)))
  ∧ (_create_amount_in_words_total Sample.four h).1
    = Ok (PDec (DFin false 1240550799999999996209298913 (-24))).
Proof. vm_compute. split; reflexivity. Qed.

(** C4, as stated, fails: a price of 1.0000000000000000000000000001 with
    quantity 1 and no discount gets the net amount
    1.000000000000000000000000000, the product rounded to 28 digits. *)
Lemma net_amount_rounded_beyond_28_digits :
  let '(r, h) := _compute_item_details Sample.single
                   (Sample.intra_state Sample.long_price) in
  r = Ok tt
  ∧ Decimal_new (PStr "1.0000000000000000000000000001")
    = Ok (DFin false 10000000000000000000000000001 (-28))
  ∧ read h Sample.first "net_amount"
    = Some (PDec (DFin false 1000000000000000000000000000 (-27)))
  ∧ ~ (to_Q (DFin false 1000000000000000000000000000 (-27))
       == to_Q (DFin false 10000000000000000000000000001 (-28)) * to_Q (of_int 1)
          - to_Q (of_int 0))%Q.
Proof.
  vm_compute. repeat split. discriminate.
Qed.

(** The first shirt of the script: 538.10 * 1 - 0 fits. *)
Lemma net_amount_exact_when_it_fits_witness :
  exists n,
    read (_compute_item_details Sample.four Sample.four_items).2 Sample.first "net_amount"
    = Some (PDec n)
    ∧ (to_Q n == to_Q (DFin false 53810 (-2)) * to_Q (of_int 1) - to_Q (of_int 0))%Q.
Proof.
  apply (net_amount_exact_when_it_fits Sample.four Sample.four_items
           (_compute_item_details Sample.four Sample.four_items).2 Sample.first
           (PStr "538.10") (PInt 1) (PInt 0)).
  - apply run_ok. vm_compute. reflexivity.
  - vm_compute. repeat constructor.
  - vm_compute. reflexivity.
  - vm_compute. reflexivity.
  - vm_compute. reflexivity.
  - vm_compute. reflexivity.
  - vm_compute. reflexivity.
  - vm_compute. reflexivity.
  - vm_compute. reflexivity.
Defined.

(** C6, as stated, fails: with a billing record that has no state the
    method raises KeyError, and it does so after the net amount of the
    first item, [None] before the call, has been computed and stored. *)
Lemma missing_state_found_after_net_amount :
  let h0 := Sample.store Sample.no_state Sample.bengaluru [Sample.shirt] in
  let '(r, h) := _compute_item_details Sample.single h0 in
  r = Raise (KeyError "state")
  ∧ read h0 Sample.first "net_amount" = Some PNone
  ∧ read h Sample.first "net_amount" = Some (PDec (DFin false 53810 (-2))).
Proof.
  vm_compute. repeat split.
Qed.

(** The same run, through the general statement. *)
Lemma missing_jurisdiction_raises_KeyError_witness :
  _compute_item_details Sample.single
    (Sample.store Sample.no_state Sample.bengaluru [Sample.shirt])
  = (Raise (KeyError "state"),
     write Sample.first "net_amount" (PDec (DFin false 53810 (-2)))
       (Sample.store Sample.no_state Sample.bengaluru [Sample.shirt])).
Proof.
  apply (missing_jurisdiction_raises_KeyError Sample.single _ Sample.first []).
  - reflexivity.
  - vm_compute. reflexivity.
  - vm_compute. reflexivity.
Defined.

(** C7, as stated, fails: a negative unit price is accepted, and the
    amounts are computed from it. *)
Lemma negative_unit_price_accepted :
  let '(r, h) := _compute_item_details Sample.single
                   (Sample.intra_state Sample.refund) in
  r = Ok tt
  ∧ read h Sample.first "net_amount" = Some (PDec (DFin true 53810 (-2)))
  ∧ read h Sample.first "total_amount"
    = Some (PDec (DFin true 5865289999999999982077669714 (-25))).
Proof.
  vm_compute. repeat split.
Qed.

(** The refund line is numeric, and is accepted. *)
Lemma compute_accepts_numeric_inputs_witness :
  (exists h', _compute_item_details Sample.single (Sample.intra_state Sample.refund)
              = (Ok tt, h'))
  ∧ convertible (read (Sample.intra_state Sample.refund) Sample.first "unit_price").
Proof.
  destruct (compute_accepts_numeric_inputs Sample.single
              (Sample.intra_state Sample.refund)) as [Hok Hconv].
  split.
  - apply Hok; vm_compute; reflexivity.
  - eapply (Hconv (_compute_item_details Sample.single
                     (Sample.intra_state Sample.refund)).2 Sample.first).
    + apply run_ok. vm_compute. reflexivity.
    + vm_compute. repeat constructor.
Defined.

(** The table of the four items of the script; and the first shirt, which
    ends up as it does alone on an invoice whose store holds no other
    item. *)
Lemma item_table_in_input_order_witness :
  let h' := (_compute_item_details Sample.four Sample.four_items).2 in
  (exists rows,
     _create_item_details_table_data Sample.four h' = (Ok (table_header :: rows), h')
     ∧ length rows = 4%nat
     ∧ (forall i x, item_details Sample.four !! i = Some x ->
          exists row, rows !! i = Some row ∧ is_row h' i x row)
     ∧ (forall x, x ∈ item_details Sample.four ->
          h' !!! x = (compute_item Sample.four x Sample.four_items).2 !!! x))
  ∧ (_compute_item_details Sample.single (Sample.intra_state Sample.shirt)).2
      !!! Sample.first
    = h' !!! Sample.first.
Proof.
  pose proof (item_table_in_input_order Sample.four Sample.four_items) as Htable.
  assert (Hr : (_compute_item_details Sample.four Sample.four_items).1 = Ok tt)
    by (vm_compute; reflexivity).
  destruct (_compute_item_details Sample.four Sample.four_items) as [r h'].
  destruct Htable as (_ & _ & Halone & Htable). cbn [fst snd] in *. split.
  - apply Htable; [exact Hr|].
    intros x Hx. apply list_elem_of_In in Hx. cbn in Hx.
    destruct Hx as [<-|[<-|[<-|[<-|[]]]]]; vm_compute; eauto.
  - apply (Halone Hr (Sample.item_locs 1) (Sample.intra_state Sample.shirt)).
    + vm_compute. repeat constructor.
    + vm_compute. repeat constructor.
    + vm_compute. reflexivity.
    + vm_compute. reflexivity.
    + vm_compute. reflexivity.
    + apply run_ok. vm_compute. reflexivity.
Defined.

(** The frame on the four items of the script. *)
Lemma compute_item_details_frame_witness :
  let h := Sample.four_items in
  let h' := (_compute_item_details Sample.four h).2 in
  read h' Sample.first "unit_price" = read h Sample.first "unit_price"
  ∧ read h' Sample.first "name" = read h Sample.first "name"
  ∧ h' !! billing_details Sample.four = h !! billing_details Sample.four
  ∧ h' !! seller_details Sample.four = h !! seller_details Sample.four.
Proof.
  destruct (compute_item_details_frame Sample.four Sample.four_items)
    as (Hin & Hkey & Hloc & Hrec).
  split; [|split; [|split]].
  - apply Hin. vm_compute. repeat constructor.
  - apply Hkey. intros Hk. apply list_elem_of_In in Hk. cbn in Hk.
    intuition discriminate.
  - apply Hloc. intros Hl. apply list_elem_of_In in Hl. cbn in Hl.
    intuition discriminate.
  - apply Hrec.
    + vm_compute. repeat constructor.
    + intros Hl. apply list_elem_of_In in Hl. cbn in Hl. intuition discriminate.
Defined.

(** * Further properties *)

Section Further.

Variable self : InvoiceGenerator.

Lemma compute_item_result (h : heap) x :
  (compute_item self x h).1 = (item_effect (view self h x)).1.
Proof. by rewrite compute_item_effect. Qed.

Lemma same_of_view (h : heap) x y :
  same_of (view self h x) = same_of (view self h y).
Proof. reflexivity. Qed.

(** X1: every item of one invoice gets the same tax type and the same tax
    rate: the regime is decided by the two parties, not by the item. *)
Theorem one_regime_per_invoice (h h' : heap) x y :
  _compute_item_details self h = (Ok tt, h') ->
  x ∈ item_details self -> y ∈ item_details self ->
  read h' x "tax_type" = read h' y "tax_type"
  ∧ read h' x "tax_rate" = read h' y "tax_rate".
Proof.
  intros Hrun Hx Hy.
  destruct (compute_postcondition _ _ _ _ Hrun Hx)
    as (? & sx & ? & ? & _ & Hsx & _ & _ & _ & Htx & Hrx & _).
  destruct (compute_postcondition _ _ _ _ Hrun Hy)
    as (? & sy & ? & ? & _ & Hsy & _ & _ & _ & Hty & Hry & _).
  rewrite (same_of_view h x y), Hsy in Hsx. injection Hsx as <-.
  by rewrite Htx, Hty, Hrx, Hry.
Qed.

Lemma same_of_strings (h : heap) x bs ss bc sc :
  read h (billing_details self) "state" = Some (PStr bs) ->
  read h (shipping_details self) "state" = Some (PStr ss) ->
  read h (billing_details self) "city" = Some (PStr bc) ->
  read h (shipping_details self) "city" = Some (PStr sc) ->
  same_of (view self h x) = Ok ((bs =? ss)%string && (bc =? sc)%string).
Proof.
  intros Hbs Hss Hbc Hsc. unfold same_of, view.
  cbn [i_bstate i_sstate i_bcity i_scity]. rewrite Hbs, Hss, Hbc, Hsc.
  cbn [require rbind py_eq]. by destruct (bs =? ss)%string.
Qed.

(** X2: what a successful run stores in an item, as the code computes it: with
    string states and cities, the regime is CGST exactly when both states
    and both cities are equal strings; the tax amount is the net amount
    times [Decimal(0.09)] (CGST) or [Decimal(0.18)] (IGST) and the total is
    net plus tax, each rounded by the decimal context; under CGST the SGST
    pair repeats tax amount and total, under IGST it is [Decimal(0)]. *)
Theorem derived_fields_as_computed (h h' : heap) x bs ss bc sc :
  _compute_item_details self h = (Ok tt, h') -> x ∈ item_details self ->
  read h (billing_details self) "state" = Some (PStr bs) ->
  read h (shipping_details self) "state" = Some (PStr ss) ->
  read h (billing_details self) "city" = Some (PStr bc) ->
  read h (shipping_details self) "city" = Some (PStr sc) ->
  let same := ((bs =? ss)%string && (bc =? sc)%string) in
  let rate := if same then rate_cgst else rate_igst in
  exists net t tot,
    read h' x "net_amount" = Some (PDec net)
    ∧ mul net rate = Ok t ∧ add net t = Ok tot
    ∧ read h' x "tax_type" = Some (PStr (if same then "CGST" else "IGST"))
    ∧ read h' x "tax_rate" = Some (PDec rate)
    ∧ read h' x "tax_amount" = Some (PDec t)
    ∧ read h' x "total_amount" = Some (PDec tot)
    ∧ read h' x "tax_amount_sgst" = Some (PDec (if same then t else of_int 0))
    ∧ read h' x "total_amount_sgst" = Some (PDec (if same then tot else of_int 0)).
Proof.
  intros Hrun Hx Hbs Hss Hbc Hsc same rate.
  destruct (compute_postcondition _ _ _ _ Hrun Hx)
    as (net & same' & t & tot & _ & Hs & Hm & Ha & Hn & Hty & Hr & Ht & Htot & Hs1 & Hs2).
  rewrite (same_of_strings h x bs ss bc sc) in Hs by done. injection Hs as <-.
  by exists net, t, tot.
Qed.

Lemma item_effect_numeric_same (h : heap) x same :
  numeric_inputs h x = true -> same_of (view self h x) = Ok same ->
  exists net t tot,
    net_of (view self h x) = Ok net
    ∧ mul net (if same then rate_cgst else rate_igst) = Ok t
    ∧ add net t = Ok tot ∧ smallb 2006 tot = true
    ∧ (item_effect (view self h x)).1 = Ok tt.
Proof.
  unfold numeric_inputs. rewrite !andb_true_iff. intros [[Hup Hq] Hdi] Hsame.
  apply numeric_field_inv in Hup as (up & a & Hup & Ha & Sa).
  apply numeric_field_inv in Hq as (q & b & Hq & Hb & Sb).
  apply numeric_field_inv in Hdi as (di & c & Hdi & Hc & Sc).
  destruct (mul_small 1000 1000 a b Sa Sb) as (ab & Hab & Sab); [done..|].
  destruct (sub_small 2001 ab c) as (net & Hnet & Snet);
    [done|by apply (smallb_mono 1000)|done..|].
  destruct (mul_small 2003 0 net _ Snet (rate_small same)) as (t & Ht & St); [done..|].
  destruct (add_small 2004 net t) as (tot & Htot & Stot);
    [by apply (smallb_mono 2003)|done..|].
  assert (Hn : net_of (view self h x) = Ok net).
  { unfold net_of, view; cbn [i_unit_price i_quantity i_discount].
    rewrite Hup, Hq, Hdi. cbn [require rbind]. rewrite Ha, Hb. cbn [rbind].
    rewrite Hab. cbn [rbind]. by rewrite Hc. }
  exists net, t, tot. repeat split; try done.
  unfold item_effect. rewrite Hn, Hsame. unfold tax_of. by rewrite Ht, Htot.
Qed.

(** X3: the cities are looked up only when the states are equal: with two
    different state strings and numeric items the run succeeds whether or
    not the parties have a city, and every item is taxed as IGST with the
    SGST pair set to [Decimal(0)]. *)
Theorem different_states_need_no_city (h : heap) bs ss :
  read h (billing_details self) "state" = Some (PStr bs) ->
  read h (shipping_details self) "state" = Some (PStr ss) ->
  bs ≠ ss ->
  forallb (numeric_inputs h) (item_details self) = true ->
  exists h',
    _compute_item_details self h = (Ok tt, h')
    ∧ forall x, x ∈ item_details self ->
        read h' x "tax_type" = Some (PStr "IGST")
        ∧ read h' x "tax_rate" = Some (PDec rate_igst)
        ∧ read h' x "tax_amount_sgst" = Some (PDec (of_int 0))
        ∧ read h' x "total_amount_sgst" = Some (PDec (of_int 0)).
Proof.
  intros Hbs Hss Hne Hall.
  assert (Hsame : forall x, same_of (view self h x) = Ok false).
  { intros x. unfold same_of, view. cbn [i_bstate i_sstate i_bcity i_scity].
    rewrite Hbs, Hss. cbn [require rbind py_eq].
    apply String.eqb_neq in Hne. by rewrite Hne. }
  destruct (for_each_success self (item_details self) h) as [h' Hrun].
  { intros x Hx. rewrite forallb_forall in Hall.
    destruct (item_effect_numeric_same h x false) as (? & ? & ? & _ & _ & _ & _ & Hok);
      [by apply Hall, list_elem_of_In|done|done]. }
  exists h'. split; [done|]. intros x Hx.
  destruct (compute_postcondition _ _ _ _ Hrun Hx)
    as (? & same & ? & ? & _ & Hs & _ & _ & _ & Hty & Hr & _ & _ & Hs1 & Hs2).
  rewrite Hsame in Hs. by injection Hs as <-.
Qed.

Lemma lookup_total_writes_ne l l' ws (h : heap) :
  l ≠ l' -> writes l ws h !!! l' = h !!! l'.
Proof.
  intros Hl. unfold lookup_total, map_lookup_total. by rewrite lookup_writes_ne.
Qed.

Lemma lookup_total_eq (h1 h2 : heap) (l : loc) :
  h1 !! l = h2 !! l -> h1 !!! l = h2 !!! l.
Proof. intros Heq. unfold lookup_total, map_lookup_total. by rewrite Heq. Qed.

Lemma for_each_app xs ys (h : heap) :
  for_each (xs ++ ys) (compute_item self) h =
    match for_each xs (compute_item self) h with
    | (Ok _, h1) => for_each ys (compute_item self) h1
    | (Raise e, h1) => (Raise e, h1)
    end.
Proof.
  revert h. induction xs as [|x xs IH]; intros h; [done|].
  cbn [app for_each]. unfold bind.
  destruct (compute_item self x h) as [[[]|e] h1]; [apply IH|done].
Qed.

(** X4: the loop stops at the first item whose iteration raises: the exception
    is that item's, the items before it hold their full results, the failing
    item holds what its iteration assigned before raising, and every other
    object, the items after it included, is untouched. *)
Theorem compute_stops_at_first_failure (h : heap) pre x post e :
  item_details self = pre ++ x :: post ->
  (forall y, y ∈ pre -> (compute_item self y h).1 = Ok tt) ->
  (compute_item self x h).1 = Raise e ->
  let '(r, h') := _compute_item_details self h in
  r = Raise e
  ∧ (forall y, y ∈ pre -> h' !!! y = (compute_item self y h).2 !!! y)
  ∧ h' !!! x = (compute_item self x h).2 !!! x
  ∧ (forall l, l ∉ pre -> l ≠ x -> h' !! l = h !! l).
Proof.
  intros Hitems Hpre Hx. unfold _compute_item_details. rewrite Hitems, for_each_app.
  destruct (for_each_success self pre h) as [h1 Hrun1].
  { intros y Hy. rewrite <- compute_item_result. by apply Hpre. }
  rewrite Hrun1, for_each_cons.
  assert (Hv : view self h1 x = view self h x) by exact (for_each_view self _ _ _ _ x Hrun1).
  rewrite compute_item_result in Hx. rewrite Hv, Hx.
  assert (Hxpre : x ∉ pre).
  { intros Hin. specialize (Hpre x Hin). rewrite compute_item_result in Hpre. congruence. }
  split; [done|]. split; [|split].
  - intros y Hy. destruct (for_each_item self _ _ _ _ Hrun1 Hy) as [_ Hd].
    assert (x ≠ y) by (by intros ->).
    rewrite lookup_total_writes_ne by done.
    rewrite Hd, compute_item_effect. cbn [snd].
    by rewrite lookup_total_writes.
  - rewrite lookup_total_writes, compute_item_effect. cbn [snd].
    rewrite lookup_total_writes. f_equal.
    apply lookup_total_eq.
    exact (for_each_frame_loc self _ _ _ _ x Hrun1 Hxpre).
  - intros l Hl Hlx. rewrite lookup_writes_ne by (by intros ->).
    exact (for_each_frame_loc self _ _ _ _ l Hrun1 Hl).
Qed.

Lemma view_agree (h1 h2 : heap) x :
  agree_on_inputs h1 h2 -> view self h1 x = view self h2 x.
Proof.
  intros Hag. unfold view.
  f_equal; apply Hag; intros Hk; apply list_elem_of_In in Hk; cbn in Hk;
    intuition discriminate.
Qed.

Lemma for_each_agree xs (h1 h2 : heap) :
  agree_on_inputs h1 h2 ->
  (for_each xs (compute_item self) h1).1 = (for_each xs (compute_item self) h2).1
  ∧ agree_on_inputs (for_each xs (compute_item self) h1).2
                    (for_each xs (compute_item self) h2).2.
Proof.
  revert h1 h2. induction xs as [|x xs IH]; intros h1 h2 Hag; [done|].
  rewrite !for_each_cons, (view_agree h1 h2 x Hag).
  assert (Hag' : agree_on_inputs (writes x (item_effect (view self h2 x)).2 h1)
                                 (writes x (item_effect (view self h2 x)).2 h2)).
  { intros l k Hk.
    rewrite !read_writes_derived by (done || apply item_effect_keys). by apply Hag. }
  destruct (item_effect (view self h2 x)).1; [by apply IH|done].
Qed.

(** X5: the run reads none of the derived fields: two stores that differ only
    in values held under derived keys give the same outcome, still differ
    only under derived keys afterwards, and, when the run succeeds, give
    every item the same derived fields.  Values left in the derived fields
    by the caller or by an earlier run are overwritten, never used. *)
Theorem derived_fields_are_not_inputs (h1 h2 : heap) :
  agree_on_inputs h1 h2 ->
  let '(r1, h1') := _compute_item_details self h1 in
  let '(r2, h2') := _compute_item_details self h2 in
  r1 = r2
  ∧ agree_on_inputs h1' h2'
  ∧ (r1 = Ok tt -> forall x k, x ∈ item_details self -> k ∈ derived_keys ->
       read h1' x k = read h2' x k).
Proof.
  intros Hag. pose proof (for_each_agree (item_details self) h1 h2 Hag) as [Hr Hag'].
  unfold _compute_item_details.
  destruct (for_each (item_details self) (compute_item self) h1) as [r1 h1'] eqn:Hrun1.
  destruct (for_each (item_details self) (compute_item self) h2) as [r2 h2'] eqn:Hrun2.
  cbn [fst snd] in Hr, Hag'. subst r2. split; [done|]. split; [done|].
  intros -> x k Hx Hk.
  destruct (compute_postcondition self _ _ _ Hrun1 Hx)
    as (n1 & s1 & t1 & tot1 & Hn1 & Hs1 & Hm1 & Ha1 & R1).
  destruct (compute_postcondition self _ _ _ Hrun2 Hx)
    as (n2 & s2 & t2 & tot2 & Hn2 & Hs2 & Hm2 & Ha2 & R2).
  rewrite (view_agree h1 h2 x Hag) in Hn1, Hs1.
  assert (n1 = n2) as -> by congruence. assert (s1 = s2) as -> by congruence.
  assert (t1 = t2) as -> by congruence. assert (tot1 = tot2) as -> by congruence.
  destruct R1 as (? & ? & ? & ? & ? & ? & ?), R2 as (? & ? & ? & ? & ? & ? & ?).
  apply list_elem_of_In in Hk. cbn in Hk.
  destruct Hk as [<-|[<-|[<-|[<-|[<-|[<-|[<-|[]]]]]]]]; congruence.
Qed.

Lemma read_Some_allocated (h : heap) l k v :
  read h l k = Some v -> h !! l = Some (h !!! l).
Proof.
  unfold read, lookup_total, map_lookup_total.
  destruct (h !! l) as [d|]; [done|]. cbn. by rewrite lookup_empty.
Qed.

Lemma compute_with_items items (h : heap) :
  _compute_item_details (with_items self items) h
  = for_each items (compute_item self) h.
Proof. reflexivity. Qed.

(** The store a successful run over [xs] leaves. *)
Lemma for_each_final xs (h h' : heap) l :
  for_each xs (compute_item self) h = (Ok tt, h') ->
  h' !! l = if decide (l ∈ xs)
            then Some (dwrites (item_effect (view self h l)).2 (h !!! l))
            else h !! l.
Proof.
  intros Hrun. destruct (decide (l ∈ xs)) as [Hin|Hnin].
  - destruct (for_each_item self _ _ _ _ Hrun Hin) as [_ Hd].
    rewrite <- compute_with_items in Hrun.
    destruct (compute_postcondition _ _ _ _ Hrun Hin) as (? & ? & ? & ? & _ & _ & _ & _ & Hn & _).
    rewrite (read_Some_allocated _ _ _ _ Hn). by rewrite Hd.
  - exact (for_each_frame_loc self _ _ _ _ l Hrun Hnin).
Qed.

(** X6: when the run succeeds, the order of the item list does not matter:
    the run over any reordering of the items succeeds too and leaves the
    same store. *)
Theorem item_order_is_irrelevant_on_success (h h' : heap) items' :
  items' ≡ₚ item_details self ->
  _compute_item_details self h = (Ok tt, h') ->
  _compute_item_details (with_items self items') h = (Ok tt, h').
Proof.
  intros Hperm Hrun. rewrite compute_with_items. unfold _compute_item_details in Hrun.
  destruct (for_each_success self items' h) as [h2 Hrun2].
  { intros x Hx. rewrite Hperm in Hx.
    by destruct (for_each_item self _ _ _ _ Hrun Hx). }
  rewrite Hrun2. f_equal. apply map_eq. intros l.
  rewrite (for_each_final _ _ _ l Hrun), (for_each_final _ _ _ l Hrun2).
  destruct (decide (l ∈ items')) as [Hin|Hnin], (decide (l ∈ item_details self))
    as [Hin'|Hnin']; try done.
  - by rewrite Hperm in Hin.
  - by rewrite <- Hperm in Hin'.
Qed.

Lemma table_row_char (h : heap) i x :
  exists r, table_row i x h = (r, h)
    ∧ match r with
      | Ok row => is_row h i x row
      | Raise e => exists k, k ∈ table_keys ∧ read h x k = None ∧ e = KeyError k
      end.
Proof.
  unfold table_row, is_row, table_keys.
  rewrite bind_getitem.
  destruct (read h x "description") as [d|] eqn:Hd;
    [|eexists; split; [done|]; eexists; split; [|done]; set_solver].
  rewrite bind_getitem.
  destruct (read h x "unit_price") as [up|] eqn:Hup;
    [|eexists; split; [done|]; eexists; split; [|done]; set_solver].
  rewrite bind_getitem.
  destruct (read h x "quantity") as [q|] eqn:Hq;
    [|eexists; split; [done|]; eexists; split; [|done]; set_solver].
  rewrite bind_getitem.
  destruct (read h x "net_amount") as [n|] eqn:Hn;
    [|eexists; split; [done|]; eexists; split; [|done]; set_solver].
  rewrite bind_getitem.
  destruct (read h x "tax_rate") as [r|] eqn:Hr;
    [|eexists; split; [done|]; eexists; split; [|done]; set_solver].
  rewrite bind_getitem.
  destruct (read h x "tax_type") as [ty|] eqn:Hty;
    [|eexists; split; [done|]; eexists; split; [|done]; set_solver].
  rewrite bind_getitem.
  destruct (read h x "tax_amount") as [t|] eqn:Ht;
    [|eexists; split; [done|]; eexists; split; [|done]; set_solver].
  rewrite bind_getitem.
  destruct (read h x "total_amount") as [tot|] eqn:Htot;
    [|eexists; split; [done|]; eexists; split; [|done]; set_solver].
  eexists. split; [reflexivity|]. by exists d, up, q, n, r, ty, t, tot.
Qed.

Lemma table_rows_char (h : heap) items idx :
  exists r, table_rows idx items h = (r, h)
    ∧ match r with
      | Ok rows =>
        length rows = length items
        ∧ forall i x, items !! i = Some x ->
            exists row, rows !! i = Some row ∧ is_row h (idx + i) x row
      | Raise e =>
        exists x k, x ∈ items ∧ k ∈ table_keys ∧ read h x k = None ∧ e = KeyError k
      end.
Proof.
  revert idx. induction items as [|y ys IH]; intros idx.
  - exists (Ok []). by repeat split.
  - cbn [table_rows]. unfold bind at 1.
    destruct (table_row_char h idx y) as (r1 & -> & Hr1).
    destruct r1 as [row|e].
    2:{ exists (Raise e). split; [done|]. destruct Hr1 as (k & Hk & Hnone & ->).
        exists y, k. split; [by left|done]. }
    unfold bind at 1. destruct (IH (S idx)) as (r2 & -> & Hr2).
    destruct r2 as [rows|e].
    2:{ exists (Raise e). split; [done|]. destruct Hr2 as (x & k & Hx & Hk & Hnone & ->).
        exists x, k. split; [by right|done]. }
    exists (Ok (row :: rows)). split; [done|]. destruct Hr2 as [Hlen Hnth].
    split; [by cbn; rewrite Hlen|].
    intros [|i] x Hi.
    + injection Hi as <-. exists row. split; [done|]. by rewrite Nat.add_0_r.
    + destruct (Hnth i x Hi) as (row' & Hrow & Hisrow).
      exists row'. split; [done|].
      by replace (idx + S i)%nat with (S idx + i)%nat by lia.
Qed.

(** X7: the table data, on any store: building it never changes the store; it
    is the header followed by one row per item, in item order, the row at
    position i being i + 1 and the eight fields of that item; or, when some
    item lacks one of the eight keys, a KeyError naming a key an item
    lacks. *)
Theorem item_table_rows_or_KeyError (h : heap) :
  exists r, _create_item_details_table_data self h = (r, h)
    ∧ match r with
      | Ok data =>
        exists rows, data = table_header :: rows
          ∧ length rows = length (item_details self)
          ∧ forall i x, item_details self !! i = Some x ->
              exists row, rows !! i = Some row ∧ is_row h i x row
      | Raise e =>
        exists x k, x ∈ item_details self ∧ k ∈ table_keys
          ∧ read h x k = None ∧ e = KeyError k
      end.
Proof.
  unfold _create_item_details_table_data, bind.
  destruct (table_rows_char h (item_details self) 0) as (r & -> & Hr).
  destruct r as [rows|e]; eexists; (split; [reflexivity|]); [|done].
  exists rows. by destruct Hr.
Qed.

Lemma totals_of_ext (h1 h2 : heap) items :
  (forall x, x ∈ items -> read h1 x "total_amount" = read h2 x "total_amount") ->
  totals_of h1 items = totals_of h2 items.
Proof.
  induction items as [|x xs IH]; intros Hall; [done|].
  cbn [totals_of]. rewrite (Hall x) by set_solver. rewrite IH; [done|].
  intros y Hy. apply Hall. set_solver.
Qed.

(** X8: the grand total is a function of the items' [total_amount] fields and
    of nothing else: two stores that hold the same [total_amount] for
    every item give the same total (or the same exception).  In particular
    [tax_amount_sgst] and [total_amount_sgst] never enter the total. *)
Theorem grand_total_reads_total_amount_only (h1 h2 : heap) :
  (forall x, x ∈ item_details self ->
     read h1 x "total_amount" = read h2 x "total_amount") ->
  (_create_total_row_total self h1).1 = (_create_total_row_total self h2).1
  ∧ (_create_amount_in_words_total self h1).1
    = (_create_amount_in_words_total self h2).1.
Proof.
  intros Hall.
  unfold _create_total_row_total, _create_amount_in_words_total, bind.
  rewrite !total_amounts_pure, (totals_of_ext h1 h2 _ Hall).
  by destruct (totals_of h2 (item_details self)).
Qed.

Lemma py_sum_from_small ds B a :
  (0 <= B)%Z -> smallb B a = true -> Forall (fun d => smallb B d = true) ds ->
  (B + 2 * Z.of_nat (length ds) <= Emax)%Z ->
  exists d, py_sum_from (PDec a) ds = Ok (PDec d) ∧ is_finite d = true.
Proof.
  revert B a. induction ds as [|d ds IH]; intros B a HB Ha Hds Hlen.
  { exists a. split; [done|]. by destruct a. }
  apply Forall_cons in Hds as [Hd Hds]. cbn [length] in Hlen.
  destruct (add_small B a d Ha Hd) as (a' & Hadd & Ha'); [done|lia|].
  cbn [py_sum_from sum_step py_add]. rewrite Hadd. cbn [rbind].
  apply (IH (B + 2)%Z); [lia|done| |lia].
  eapply Forall_impl; [exact Hds|]. intros d' Hd'. by apply (smallb_mono B); [lia|].
Qed.

Lemma py_sum_small ds B :
  (0 <= B)%Z -> Forall (fun d => smallb B d = true) ds ->
  (B + 2 * Z.of_nat (length ds) <= Emax)%Z ->
  exists v, py_sum ds = Ok v
    ∧ ((ds = [] ∧ v = PInt 0) ∨ exists d, v = PDec d ∧ is_finite d = true).
Proof.
  intros HB Hds Hlen. destruct ds as [|d ds]; [exists (PInt 0); split; [done|by left]|].
  apply Forall_cons in Hds as [Hd Hds]. cbn [length] in Hlen.
  assert (H0 : smallb B (of_int 0) = true).
  { apply smallb_spec. split; [done|]. apply pow10_pos. }
  destruct (add_small B d (of_int 0) Hd H0) as (a & Hadd & Ha); [done|lia|].
  unfold py_sum. cbn [py_sum_from sum_step]. rewrite Hadd. cbn [rbind].
  destruct (py_sum_from_small ds (B + 2) a) as (v & Hv & Hfin); [lia|done| |lia|].
  - eapply Forall_impl; [exact Hds|]. intros d' Hd'. by apply (smallb_mono B); [lia|].
  - exists (PDec v). split; [done|]. right. by exists v.
Qed.

Lemma totals_of_small (h : heap) xs B :
  (forall x, x ∈ xs ->
     exists tot, read h x "total_amount" = Some (PDec tot) ∧ smallb B tot = true) ->
  exists ds, totals_of h xs = Ok ds
    ∧ Forall (fun d => smallb B d = true) ds ∧ length ds = length xs.
Proof.
  induction xs as [|x xs IH]; intros Hall; [by exists []|].
  destruct (Hall x) as (tot & Htot & Hs); [by left|].
  destruct IH as (ds & Hds & Hsmall & Hlen); [intros y Hy; apply Hall; by right|].
  exists (tot :: ds). cbn [totals_of]. rewrite Htot. cbn [require rbind Decimal_new].
  rewrite Hds. cbn [rbind]. split; [done|]. split; [by constructor|by cbn; rewrite Hlen].
Qed.

Lemma amounts_pipeline_run (h : heap) :
  jurisdiction_strings self h = true ->
  forallb (numeric_inputs h) (item_details self) = true ->
  (forall x, x ∈ item_details self -> is_Some (read h x "description")) ->
  (Z.of_nat (length (item_details self)) <= 100000)%Z ->
  exists h' rows total,
    _compute_item_details self h = (Ok tt, h')
    ∧ _create_item_details_table_data self h' = (Ok (table_header :: rows), h')
    ∧ length rows = length (item_details self)
    ∧ _create_total_row_total self h' = (Ok total, h')
    ∧ (total = PInt 0 ∨ exists d, total = PDec d ∧ is_finite d = true).
Proof.
  intros Hj Hnum Hdesc Hlen.
  rewrite forallb_forall in Hnum.
  destruct (for_each_success self (item_details self) h) as [h' Hrun].
  { intros x Hx. apply item_effect_numeric; [done|]. by apply Hnum, list_elem_of_In. }
  fold (_compute_item_details self h) in Hrun.
  assert (Hpost : forall x, x ∈ item_details self ->
            (exists row, is_row h' 0 x row)
            ∧ exists tot, read h' x "total_amount" = Some (PDec tot)
                ∧ smallb 2006 tot = true).
  { intros x Hx.
    destruct (compute_postcondition _ _ _ _ Hrun Hx)
      as (net & same & t & tot & Hnet & Hs & Hm & Ha & Hn & Hty & Hr & Ht & Htot & _).
    destruct (item_effect_numeric_same h x same) as (net' & t' & tot' & Hnet' & Hm' & Ha' & Hsm & _);
      [by apply Hnum, list_elem_of_In|done|].
    assert (net' = net) as -> by congruence. assert (t' = t) as -> by congruence.
    assert (tot' = tot) as -> by congruence.
    split; [|by exists tot].
    destruct (net_of_ok_inv _ _ Hnet) as ((up & ? & Hup & _) & (q & ? & Hq & _) & _).
    destruct (Hdesc x Hx) as [d Hd].
    cbn [view i_unit_price i_quantity] in Hup, Hq.
    eexists. exists d, up, q. do 5 eexists. split; [reflexivity|].
    unfold _compute_item_details in Hrun.
    rewrite !(for_each_frame_key self _ _ _ _ x _ Hrun)
      by (intros Hk; apply list_elem_of_In in Hk; cbn in Hk; intuition discriminate).
    by repeat split. }
  destruct (table_rows_ok h' (item_details self) 0) as (rows & Hrows & Hrl & _).
  { intros x Hx. by destruct (Hpost x Hx). }
  destruct (totals_of_small h' (item_details self) 2006) as (ds & Hds & Hsmall & Hdl).
  { intros x Hx. by destruct (Hpost x Hx). }
  destruct (py_sum_small ds 2006) as (total & Htotal & Hshape); [done|done| |].
  { rewrite Hdl. unfold Emax. lia. }
  exists h', rows, total. split; [done|]. split; [|split; [done|split]].
  - unfold _create_item_details_table_data, bind. by rewrite Hrows.
  - unfold _create_total_row_total, bind.
    rewrite total_amounts_pure, Hds. by rewrite Htotal.
  - destruct Hshape as [[_ ->]|Hd]; [by left|by right].
Qed.

(** X9: for ordinary inputs nothing in the amounts pipeline raises: when both
    parties carry string state and city, every item carries a description
    and numeric unit price, quantity and discount (finite, below 10^1000,
    of either sign), and there are at most 100000 items, then
    [_compute_item_details] succeeds, the table data is built with one row
    per item, and both grand totals are computed, with the same value. *)
Theorem amounts_pipeline_succeeds (h : heap) :
  jurisdiction_strings self h = true ->
  forallb (numeric_inputs h) (item_details self) = true ->
  (forall x, x ∈ item_details self -> is_Some (read h x "description")) ->
  (Z.of_nat (length (item_details self)) <= 100000)%Z ->
  exists h' rows total,
    _compute_item_details self h = (Ok tt, h')
    ∧ _create_item_details_table_data self h' = (Ok (table_header :: rows), h')
    ∧ length rows = length (item_details self)
    ∧ _create_total_row_total self h' = (Ok total, h')
    ∧ _create_amount_in_words_total self h' = (Ok total, h').
Proof.
  intros Hj Hnum Hdesc Hlen.
  destruct (amounts_pipeline_run h Hj Hnum Hdesc Hlen)
    as (h' & rows & total & Hrun & Htable & Hrows & Htotal & _).
  by exists h', rows, total.
Qed.

End Further.

(** ** Concrete runs of the further properties *)

(** The first two items of the script's invoice. *)
Lemma one_regime_per_invoice_witness :
  let h' := (_compute_item_details Sample.four Sample.four_items).2 in
  read h' 10%positive "tax_type" = read h' 11%positive "tax_type"
  ∧ read h' 10%positive "tax_rate" = read h' 11%positive "tax_rate".
Proof.
  apply (one_regime_per_invoice Sample.four Sample.four_items).
  - apply run_ok. vm_compute. reflexivity.
  - vm_compute. repeat constructor.
  - vm_compute. repeat constructor.
Defined.

(** The first shirt of the script: same state and city, hence CGST. *)
Lemma derived_fields_as_computed_witness :
  let h' := (_compute_item_details Sample.four Sample.four_items).2 in
  exists net t tot,
    read h' Sample.first "net_amount" = Some (PDec net)
    ∧ mul net rate_cgst = Ok t ∧ add net t = Ok tot
    ∧ read h' Sample.first "tax_type" = Some (PStr "CGST")
    ∧ read h' Sample.first "tax_rate" = Some (PDec rate_cgst)
    ∧ read h' Sample.first "tax_amount" = Some (PDec t)
    ∧ read h' Sample.first "total_amount" = Some (PDec tot)
    ∧ read h' Sample.first "tax_amount_sgst" = Some (PDec t)
    ∧ read h' Sample.first "total_amount_sgst" = Some (PDec tot).
Proof.
  apply (derived_fields_as_computed Sample.four Sample.four_items _ Sample.first
           "KARNATAKA" "KARNATAKA" "BENGALURU" "BENGALURU").
  - apply run_ok. vm_compute. reflexivity.
  - vm_compute. repeat constructor.
  - vm_compute. reflexivity.
  - vm_compute. reflexivity.
  - vm_compute. reflexivity.
  - vm_compute. reflexivity.
Defined.

(** Neither party has a city; the states differ. *)
Lemma different_states_need_no_city_witness :
  exists h',
    _compute_item_details Sample.single Cases.no_cities = (Ok tt, h')
    ∧ forall x, x ∈ item_details Sample.single ->
        read h' x "tax_type" = Some (PStr "IGST")
        ∧ read h' x "tax_rate" = Some (PDec rate_igst)
        ∧ read h' x "tax_amount_sgst" = Some (PDec (of_int 0))
        ∧ read h' x "total_amount_sgst" = Some (PDec (of_int 0)).
Proof.
  apply (different_states_need_no_city Sample.single Cases.no_cities
           "KARNATAKA" "MAHARASHTRA").
  - vm_compute. reflexivity.
  - vm_compute. reflexivity.
  - discriminate.
  - vm_compute. reflexivity.
Defined.

(** The second of three items has no price: TypeError, the first item is
    computed, the third is untouched. *)
Lemma compute_stops_at_first_failure_witness :
  let '(r, h') := _compute_item_details Cases.three Cases.three_items in
  r = Raise TypeError
  ∧ (forall y, y ∈ [10%positive] ->
       h' !!! y = (compute_item Cases.three y Cases.three_items).2 !!! y)
  ∧ h' !!! 11%positive
    = (compute_item Cases.three 11%positive Cases.three_items).2 !!! 11%positive
  ∧ (forall l, l ∉ [10%positive] -> l ≠ 11%positive ->
       h' !! l = Cases.three_items !! l).
Proof.
  apply (compute_stops_at_first_failure Cases.three Cases.three_items
           [10%positive] 11%positive [12%positive] TypeError).
  - reflexivity.
  - intros y Hy. apply list_elem_of_In in Hy. cbn in Hy.
    destruct Hy as [<-|[]]. vm_compute. reflexivity.
  - vm_compute. reflexivity.
Defined.

(** A stale net amount left in the first item changes nothing. *)
Lemma derived_fields_are_not_inputs_witness :
  let h1 := Sample.intra_state Sample.shirt in
  let h2 := write Sample.first "net_amount" (PInt 5) h1 in
  let '(r1, h1') := _compute_item_details Sample.single h1 in
  let '(r2, h2') := _compute_item_details Sample.single h2 in
  r1 = r2
  ∧ agree_on_inputs h1' h2'
  ∧ (r1 = Ok tt -> forall x k, x ∈ item_details Sample.single -> k ∈ derived_keys ->
       read h1' x k = read h2' x k).
Proof.
  apply (derived_fields_are_not_inputs Sample.single).
  intros l k Hk. symmetry. apply read_write_ne_key. intros <-.
  apply Hk. unfold derived_keys. by left.
Defined.

(** The first two items of the script, swapped. *)
Lemma item_order_is_irrelevant_on_success_witness :
  _compute_item_details
    (with_items Sample.four [11%positive; 10%positive; 12%positive; 13%positive])
    Sample.four_items
  = (Ok tt, (_compute_item_details Sample.four Sample.four_items).2).
Proof.
  apply (item_order_is_irrelevant_on_success Sample.four).
  - apply perm_swap.
  - apply run_ok. vm_compute. reflexivity.
Defined.

(** The four items of the script. *)
Lemma amounts_pipeline_succeeds_witness :
  exists h' rows total,
    _compute_item_details Sample.four Sample.four_items = (Ok tt, h')
    ∧ _create_item_details_table_data Sample.four h' = (Ok (table_header :: rows), h')
    ∧ length rows = 4%nat
    ∧ _create_total_row_total Sample.four h' = (Ok total, h')
    ∧ _create_amount_in_words_total Sample.four h' = (Ok total, h').
Proof.
  apply (amounts_pipeline_succeeds Sample.four Sample.four_items).
  - vm_compute. reflexivity.
  - vm_compute. reflexivity.
  - intros x Hx. apply list_elem_of_In in Hx. cbn in Hx.
    destruct Hx as [<-|[<-|[<-|[<-|[]]]]]; vm_compute; eauto.
  - vm_compute. discriminate.
Defined.

(** Overwriting the SGST tax of the first item leaves the total as it is. *)
Lemma grand_total_reads_total_amount_only_witness :
  let h1 := (_compute_item_details Sample.four Sample.four_items).2 in
  let h2 := write Sample.first "tax_amount_sgst" (PInt 0) h1 in
  (_create_total_row_total Sample.four h1).1 = (_create_total_row_total Sample.four h2).1
  ∧ (_create_amount_in_words_total Sample.four h1).1
    = (_create_amount_in_words_total Sample.four h2).1.
Proof.
  apply (grand_total_reads_total_amount_only Sample.four).
  intros x _. symmetry. by apply read_write_ne_key.
Defined.

(** * The totals row *)

Section FormatFacts.

Lemma is_digit_cases a :
  is_digit a = true -> exists k, (k < 10)%N ∧ a = digit_char k.
Proof.
  intros H. exists (N_of_ascii a - 48)%N.
  destruct a as [[] [] [] [] [] [] [] []]; try discriminate H; by vm_compute.
Qed.

Lemma digit_char_is_digit k : (k < 10)%N -> is_digit (digit_char k) = true.
Proof.
  intros Hk.
  assert (k = 0 ∨ k = 1 ∨ k = 2 ∨ k = 3 ∨ k = 4 ∨ k = 5 ∨ k = 6 ∨ k = 7 ∨ k = 8 ∨ k = 9)%N
    as Hc by lia.
  repeat destruct Hc as [->|Hc]; try subst k; reflexivity.
Qed.

Lemma digit_val_char k : (k < 10)%N -> digit_val (digit_char k) = k.
Proof.
  intros Hk.
  assert (k = 0 ∨ k = 1 ∨ k = 2 ∨ k = 3 ∨ k = 4 ∨ k = 5 ∨ k = 6 ∨ k = 7 ∨ k = 8 ∨ k = 9)%N
    as Hc by lia.
  repeat destruct Hc as [->|Hc]; try subst k; reflexivity.
Qed.

(** What the parser does with a digit. *)
Lemma digit_char_plain k :
  (k < 10)%N ->
  is_space (digit_char k) = false
  ∧ Ascii.eqb (digit_char k) "_" = false
  ∧ forall l, parse_sign (digit_char k :: l) = (false, digit_char k :: l).
Proof.
  intros Hk.
  assert (k = 0 ∨ k = 1 ∨ k = 2 ∨ k = 3 ∨ k = 4 ∨ k = 5 ∨ k = 6 ∨ k = 7 ∨ k = 8 ∨ k = 9)%N
    as Hc by lia.
  repeat destruct Hc as [->|Hc]; try subst k; by repeat split.
Qed.


Lemma digits_val_from (l : list ascii) (acc : N) :
  fold_left (fun acc a => (10 * acc + digit_val a)%N) l acc
  = (acc * 10 ^ N.of_nat (length l) + digits_val l)%N.
Proof.
  unfold digits_val. revert acc. induction l as [|a l IH]; intros acc.
  - cbn. lia.
  - cbn [fold_left length]. rewrite IH, (IH (10 * 0 + digit_val a)%N).
    rewrite Nat2N.inj_succ, N.pow_succ_r'. lia.
Qed.

Lemma digits_val_cons a l :
  digits_val (a :: l) = (digit_val a * 10 ^ N.of_nat (length l) + digits_val l)%N.
Proof.
  unfold digits_val at 1. cbn [fold_left]. rewrite digits_val_from. lia.
Qed.

Lemma digits_val_zero l : digits_val ("0"%char :: l) = digits_val l.
Proof. rewrite digits_val_cons. change (digit_val "0") with 0%N. lia. Qed.

Lemma digits_fuel_spec fuel n acc :
  (n < 10 ^ N.of_nat fuel)%N -> all_digits acc ->
  all_digits (digits_fuel fuel n acc)
  ∧ digits_val (digits_fuel fuel n acc)
    = (n * 10 ^ N.of_nat (length acc) + digits_val acc)%N
  ∧ (length acc + (match fuel with O => 0 | S _ => 1 end)
     <= length (digits_fuel fuel n acc))%nat.
Proof.
  revert n acc. induction fuel as [|fuel IH]; intros n acc Hn Hacc.
  - cbn in Hn. assert (n = 0%N) as -> by lia. cbn [digits_fuel].
    split; [done|split; [|lia]]. rewrite N.mul_0_l. reflexivity.
  - cbn [digits_fuel].
    assert (Hm : (n mod 10 < 10)%N) by (apply N.mod_lt; lia).
    assert (Hacc' : all_digits (digit_char (n mod 10) :: acc)).
    { constructor; [by apply digit_char_is_digit|done]. }
    destruct (N.ltb_spec n 10) as [Hs|Hs].
    + rewrite N.mod_small by done. rewrite N.mod_small in Hacc' by done.
      split; [done|]. split; [|cbn [length]; lia].
      rewrite digits_val_cons, digit_val_char by done. reflexivity.
    + destruct (IH (n / 10)%N (digit_char (n mod 10) :: acc)) as (Hd & Hv & Hl); [|done|].
      { apply N.Div0.div_lt_upper_bound.
        by rewrite Nat2N.inj_succ, N.pow_succ_r' in Hn. }
      split; [done|]. split; [|cbn [length] in Hl; lia].
      rewrite Hv, digits_val_cons, digit_val_char by done.
      cbn [length]. rewrite Nat2N.inj_succ, N.pow_succ_r'.
      pose proof (N.div_mod' n 10) as Hdm.
      generalize dependent (10 ^ N.of_nat (length acc))%N. intros. nia.
Qed.

Lemma digits_of_spec n :
  all_digits (digits_of n) ∧ digits_val (digits_of n) = n ∧ digits_of n ≠ [].
Proof.
  unfold digits_of. set (fuel := S (N.to_nat (N.size n))).
  assert (Hn : (n < 10 ^ N.of_nat fuel)%N).
  { unfold fuel. rewrite Nat2N.inj_succ, N2Nat.id.
    pose proof (N.size_gt n) as Hs.
    assert (2 ^ N.size n <= 10 ^ N.size n)%N by (apply N.pow_le_mono_l; lia).
    rewrite N.pow_succ_r'. lia. }
  destruct (digits_fuel_spec fuel n [] Hn) as (Hd & Hv & Hl); [constructor|].
  split; [done|]. split; [rewrite Hv; cbn; lia|].
  intros Hnil. rewrite Hnil in Hl. unfold fuel in Hl. cbn in Hl. lia.
Qed.

Lemma span_digits_app ds rest :
  all_digits ds ->
  match rest with [] => True | a :: _ => is_digit a = false end ->
  span_digits (ds ++ rest) = (ds, rest).
Proof.
  intros Hds Hrest. induction Hds as [|a ds Ha _ IH]; cbn [app span_digits].
  - destruct rest as [|a r]; [done|]. cbn [span_digits]. by rewrite Hrest.
  - by rewrite Ha, IH.
Qed.

Lemma strip_id a l z :
  is_space a = false -> is_space z = false ->
  strip (a :: l ++ [z]) = a :: l ++ [z].
Proof.
  intros Ha Hz. unfold strip. cbn [lstrip]. rewrite Ha.
  change (a :: l ++ [z]) with ((a :: l) ++ [z]).
  rewrite rev_app_distr. cbn [rev app lstrip]. rewrite Hz.
  change (z :: rev l ++ [a]) with ([z] ++ rev (a :: l)).
  by rewrite rev_app_distr, rev_involutive.
Qed.

Lemma remove_underscores_id l :
  Forall (fun a => Ascii.eqb a "_" = false) l -> remove_underscores l = l.
Proof.
  unfold remove_underscores. induction 1 as [|a l Ha _ IH]; [done|].
  cbn [List.filter]. by rewrite Ha, IH.
Qed.

Lemma all_digits_plain l :
  all_digits l -> Forall (fun a => Ascii.eqb a "_" = false) l.
Proof.
  intros Hl. eapply Forall_impl; [exact Hl|]. intros a Ha.
  destruct (is_digit_cases a Ha) as (k & Hk & ->).
  by destruct (digit_char_plain k Hk) as (_ & ? & _).
Qed.

Lemma split_point_spec ds :
  all_digits ds -> ds ≠ [] ->
  exists k ip f1 f2,
    split_point ds = (digit_char k :: ip, [f1; f2])
    ∧ (k < 10)%N ∧ all_digits ip ∧ all_digits [f1; f2]
    ∧ digits_val (digit_char k :: ip ++ [f1; f2]) = digits_val ds.
Proof.
  intros Hds Hne. unfold split_point.
  destruct ds as [|a [|b [|c tl]]]; [done|..].
  - (* one digit *)
    exists 0%N, [], "0"%char, a. cbn. split; [done|]. split; [done|].
    apply Forall_cons in Hds as [Ha _]. split; [constructor|].
    split; [by repeat constructor|].
    change (digit_val (digit_char 0)) with 0%N. change (digit_val "0") with 0%N. lia.
  - (* two digits *)
    exists 0%N, [], a, b. cbn. split; [done|]. split; [done|].
    split; [constructor|]. split; [done|].
    change (digit_val (digit_char 0)) with 0%N. lia.
  - (* three digits or more *)
    set (l := a :: b :: c :: tl) in *.
    assert (Hlen : (3 <= length l)%nat) by (cbn; lia).
    destruct (Z.ltb_spec (Z.of_nat (length l) - 2) 0) as [Hlt|_]; [lia|].
    replace (Z.to_nat (Z.of_nat (length l) - 2)) with (length l - 2)%nat by lia.
    assert (Htake : take (length l - 2) l ≠ []).
    { intros Hnil. apply (f_equal length) in Hnil. rewrite length_take in Hnil.
      cbn [length] in Hnil. lia. }
    destruct (take (length l - 2) l) as [|a' ip] eqn:Hip; [done|].
    assert (Hdrop : length (drop (length l - 2) l) = 2%nat) by (rewrite length_drop; lia).
    destruct (drop (length l - 2) l) as [|f1 [|f2 [|]]] eqn:Hfp; try (cbn in Hdrop; lia).
    assert (Hall : all_digits ((a' :: ip) ++ [f1; f2])).
    { rewrite <- Hip, <- Hfp, take_drop. exact Hds. }
    apply Forall_app in Hall as [Hi Hf]. apply Forall_cons in Hi as [Ha' Hi].
    destruct (is_digit_cases a' Ha') as (k & Hk & ->).
    exists k, ip, f1, f2. split; [done|]. split; [done|]. split; [done|]. split; [done|].
    change (digit_char k :: ip ++ [f1; f2]) with ((digit_char k :: ip) ++ [f1; f2]).
    by rewrite <- Hip, <- Hfp, take_drop.
Qed.

(** Parsing the [.2f] text of a finite decimal gives the decimal rescaled
    to exponent -2, sign included. *)
Lemma of_string_format_2f s c e :
  of_string (format_2f (DFin s c e)) = Ok (DFin s (rescale c e (-2)) (-2)).
Proof.
  unfold format_2f, of_string.
  destruct (digits_of_spec (rescale c e (-2))) as (Hds & Hv & Hne).
  destruct (split_point_spec _ Hds Hne) as (k & ip & f1 & f2 & -> & Hk & Hip & Hfp & Hval).
  rewrite list_ascii_of_string_of_list_ascii.
  destruct (digit_char_plain k Hk) as (Hksp & Hkus & Hksign).
  assert (Hf2 : is_digit f2 = true).
  { apply Forall_cons in Hfp as [_ Hfp]. by apply Forall_cons in Hfp as [? _]. }
  destruct (is_digit_cases f2 Hf2) as (k2 & Hk2 & ->).
  destruct (digit_char_plain k2 Hk2) as (Hk2sp & _ & _).
  assert (Hbody_plain : Forall (fun a => Ascii.eqb a "_" = false)
                          (digit_char k :: ip ++ "."%char :: [f1; digit_char k2])).
  { constructor; [done|]. apply Forall_app. split; [by apply all_digits_plain|].
    constructor; [done|]. by apply all_digits_plain. }
  assert (Hnum : forall sg,
    parse_number sg (digit_char k :: ip ++ "."%char :: [f1; digit_char k2])
    = Some (DFin sg (rescale c e (-2)) (-2))).
  { intros sg. unfold parse_number.
    change (digit_char k :: ip ++ "."%char :: [f1; digit_char k2])
      with ((digit_char k :: ip) ++ "."%char :: [f1; digit_char k2]).
    rewrite span_digits_app; [|constructor; [by apply digit_char_is_digit|done]|done].
    cbn match.
    rewrite <- (app_nil_r [f1; digit_char k2]) at 1.
    rewrite span_digits_app by done.
    cbn [app parse_exponent length]. rewrite <- Hv, <- Hval. reflexivity. }
  assert (Hassoc : ip ++ "."%char :: [f1; digit_char k2]
                   = (ip ++ "."%char :: [f1]) ++ [digit_char k2])
    by (by rewrite <- app_assoc).
  destruct s; cbn [sign_text app].
  - pose proof (strip_id "-"%char (digit_char k :: ip ++ "."%char :: [f1])
                  (digit_char k2) eq_refl Hk2sp) as Hs.
    cbn [app] in Hs. rewrite <- Hassoc in Hs. rewrite Hs.
    rewrite remove_underscores_id by (by constructor).
    cbn [parse_sign]. by rewrite Hnum.
  - pose proof (strip_id (digit_char k) (ip ++ "."%char :: [f1])
                  (digit_char k2) Hksp Hk2sp) as Hs.
    rewrite <- Hassoc in Hs. rewrite Hs.
    rewrite remove_underscores_id by done.
    rewrite Hksign. by rewrite Hnum.
Qed.

(** *** Rounding to two places *)

Lemma round_half_even_error c drop :
  (0 < drop)%Z ->
  (2 * c <= 2 * (round_half_even c drop * pow10 drop) + pow10 drop
   ∧ 2 * (round_half_even c drop * pow10 drop) <= 2 * c + pow10 drop)%N.
Proof.
  intros Hd. unfold round_half_even.
  assert (Hp : pow10 drop = (10 * pow10 (drop - 1))%N).
  { replace drop with (1 + (drop - 1))%Z at 1 by lia. by rewrite pow10_add by lia. }
  pose proof (pow10_pos (drop - 1)) as Hh.
  rewrite Hp. generalize dependent (pow10 (drop - 1)). intros t _ Ht.
  pose proof (N.div_mod' c (10 * t)) as Hdm.
  assert (Hr : (c mod (10 * t) < 10 * t)%N) by (apply N.mod_lt; lia).
  generalize dependent (c mod (10 * t))%N. generalize dependent (c / (10 * t))%N.
  intros q r Hdm Hr.
  destruct (N.ltb_spec (5 * t) r); [nia|].
  destruct (N.eqb_spec r (5 * t)); destruct (N.odd q); cbn [andb]; nia.
Qed.

Lemma rescale_pad c e exp :
  (exp <= e)%Z -> rescale c e exp = (c * pow10 (e - exp))%N.
Proof.
  intros He. unfold rescale. destruct (N.eqb_spec c 0) as [->|_]; [done|].
  by destruct (Z.leb_spec exp e); [|lia].
Qed.

Lemma rescale_error c e exp :
  (e < exp)%Z ->
  (2 * c <= 2 * (rescale c e exp * pow10 (exp - e)) + pow10 (exp - e)
   ∧ 2 * (rescale c e exp * pow10 (exp - e)) <= 2 * c + pow10 (exp - e))%N.
Proof.
  intros He. unfold rescale.
  destruct (N.eqb_spec c 0) as [->|Hc]; [lia|].
  destruct (Z.leb_spec exp e); [lia|].
  destruct (Z.ltb_spec (ndigits c + e - exp) 0) as [Hdig|Hdig].
  - replace (exp - (exp - 1))%Z with 1%Z by lia.
    change (round_half_even 1 1) with 0%N.
    pose proof (ndigits_upper c) as Hup.
    pose proof (pow10_le (ndigits c) (exp - e - 1)) as Hle.
    assert (Hp : pow10 (exp - e) = (10 * pow10 (exp - e - 1))%N).
    { replace (exp - e)%Z with (1 + (exp - e - 1))%Z at 1 by lia.
      by rewrite pow10_add by lia. }
    lia.
  - by apply round_half_even_error; lia.
Qed.

(** The decimal shown by [.2f] is the value itself when that has at most
    two decimals, and within half a unit of the second decimal always. *)
Lemma rescale_exact_value s c e :
  (-2 <= e)%Z ->
  (to_Q (DFin s (rescale c e (-2)) (-2)) == to_Q (DFin s c e))%Q.
Proof.
  intros He. rewrite rescale_pad by done. apply (to_Q_rescale s c e (-2) He).
Qed.

Lemma rescale_value_error s c e :
  (Qabs (to_Q (DFin s (rescale c e (-2)) (-2)) - to_Q (DFin s c e)) <= 1 # 200)%Q.
Proof.
  destruct (Z.le_gt_cases (-2) e) as [He|He].
  - assert (Hd : (to_Q (DFin s (rescale c e (-2)) (-2)) - to_Q (DFin s c e) == 0)%Q)
      by (rewrite rescale_exact_value by done; ring).
    by rewrite Hd.
  - destruct (rescale_error c e (-2)) as [H1 H2]; [lia|].
    set (c' := rescale c e (-2)) in *. set (P := pow10 (-2 - e)) in *.
    assert (Ht : (0 < (10 # 1) ^ e)%Q) by (by apply Qpower_0_lt).
    assert (HP : (inject_Z (Z.of_N P) * (10 # 1) ^ e == 1 # 100)%Q).
    { unfold P. rewrite inject_pow10 by lia.
      rewrite <- Qpower_plus by apply ten_neq_0.
      by replace (-2 - e + e)%Z with (-2)%Z by lia. }
    assert (Hx : (to_Q (DFin s c' (-2)) - to_Q (DFin s c e)
                  == (inject_Z (signed s (c' * P)) - inject_Z (signed s c)) * (10 # 1) ^ e)%Q).
    { rewrite <- (to_Q_rescale s c' (-2) e) by lia. cbn [to_Q]. fold P. ring. }
    rewrite Hx. apply Qabs_Qle_condition.
    assert (Hz : (- Z.of_N P <= 2 * (signed s (c' * P) - signed s c) <= Z.of_N P)%Z).
    { unfold signed. destruct s; lia. }
    set (z := signed s (c' * P)) in *. set (w := signed s c) in *. clearbody z w.
    split.
    + assert (Hb : (- (1 # 200) == - (inject_Z (Z.of_N P) * (1 # 2)) * (10 # 1) ^ e)%Q).
      { setoid_replace (1 # 200)%Q with ((1 # 100) * (1 # 2))%Q using relation Qeq by done.
        rewrite <- HP. ring. }
      rewrite Hb. apply Qmult_le_compat_r; [|by apply Qlt_le_weak].
      unfold Qle. cbn. lia.
    + assert (Hb : (1 # 200 == (inject_Z (Z.of_N P) * (1 # 2)) * (10 # 1) ^ e)%Q).
      { setoid_replace (1 # 200)%Q with ((1 # 100) * (1 # 2))%Q using relation Qeq by done.
        rewrite <- HP. ring. }
      rewrite Hb. apply Qmult_le_compat_r; [|by apply Qlt_le_weak].
      unfold Qle. cbn. lia.
Qed.

End FormatFacts.

(** * The lines below the item table *)

Section Display.

Lemma py_sum_from_dec a ds v :
  py_sum_from (PDec a) ds = Ok v -> exists d, v = PDec d.
Proof.
  revert a. induction ds as [|d ds IH]; intros a; cbn [py_sum_from].
  - intros [= <-]. by exists a.
  - cbn [sum_step py_add]. destruct (add a d) as [r|]; [|done]. cbn [rbind]. apply IH.
Qed.

(** [sum] over decimals gives the int 0 for the empty list and a decimal
    for any other. *)
Lemma py_sum_shape ds v :
  py_sum ds = Ok v -> (ds = [] ∧ v = PInt 0) ∨ exists d, v = PDec d.
Proof.
  unfold py_sum. destruct ds as [|d ds]; cbn [py_sum_from].
  - intros [= <-]. by left.
  - cbn [sum_step]. destruct (add d (of_int 0)) as [r|]; [|done]. cbn [rbind].
    intros H. right. by apply (py_sum_from_dec r ds).
Qed.

Lemma totals_of_length (h : heap) xs ds :
  totals_of h xs = Ok ds -> length ds = length xs.
Proof.
  revert ds. induction xs as [|x xs IH]; intros ds; cbn [totals_of].
  - by intros [= <-].
  - destruct (require "total_amount" (read h x "total_amount")) as [v|]; [|done].
    cbn [rbind]. destruct (Decimal_new v) as [d|]; [|done]. cbn [rbind].
    destruct (totals_of h xs) as [ds'|]; [|done]. cbn [rbind].
    intros [= <-]. cbn [length]. by rewrite (IH ds').
Qed.

Lemma total_row_total_run (self : InvoiceGenerator) (h : heap) :
  _create_total_row_total self h = (rbind (totals_of h (item_details self)) py_sum, h).
Proof.
  unfold _create_total_row_total, bind. rewrite total_amounts_pure.
  by destruct (totals_of h (item_details self)).
Qed.

(** X10: the totals row.  [_create_total_row] never changes the store and fails
    only where the sum of the items' totals fails, with that exception.
    Otherwise it returns the caption, a spacer and one paragraph, whose
    text between the bold tags is the total to two decimals: for a finite
    total the text reads back, as [Decimal(text)], as a decimal of the
    same sign with exponent -2 that is within 0.005 of the total, and
    equal to it when the total has at most two decimals.  The only total
    that is not a decimal is that of an invoice without items, shown as
    0.00. *)
Theorem total_row_shows_rounded_total (self : InvoiceGenerator) (h : heap) :
  (_create_total_row self h).2 = h
  ∧ match (_create_total_row_total self h).1 with
    | Raise e => (_create_total_row self h).1 = Raises (Exc e)
    | Ok total =>
      exists text,
        (_create_total_row self h).1
        = Returns [Paragraph "<b>TOTAL:</b>";
                   Spacer 1 (0.2 * inch)%float;
                   Paragraph ("<b>" ++ text ++ "</b>")]
        ∧ (forall s c e, total = PDec (DFin s c e) ->
             exists c',
               of_string text = Ok (DFin s c' (-2))
               ∧ (Qabs (to_Q (DFin s c' (-2)) - to_Q (DFin s c e)) <= 1 # 200)%Q
               ∧ (-2 <= e -> (to_Q (DFin s c' (-2)) == to_Q (DFin s c e))%Q))
        ∧ ((forall d, total ≠ PDec d) ->
             item_details self = [] ∧ text = "0.00"%string)
    end.
Proof.
  unfold _create_total_row. rewrite total_row_total_run. cbn [fst snd].
  split; [done|].
  destruct (totals_of h (item_details self)) as [ds|e] eqn:Hds; [|done].
  cbn [rbind]. destruct (py_sum ds) as [total|e] eqn:Hsum; [|done].
  cbn [of_result obind].
  destruct (py_sum_shape ds total Hsum) as [[-> ->]|[d ->]].
  - exists "0.00"%string. split; [done|]. split; [done|].
    intros _. split; [|done].
    apply totals_of_length in Hds. by destruct (item_details self).
  - exists (format_2f d). split; [done|]. split.
    + intros s c e [= ->]. exists (rescale c e (-2)).
      split; [apply of_string_format_2f|].
      split; [apply rescale_value_error|apply rescale_exact_value].
    + intros Hd. by destruct (Hd d).
Qed.

(** X11: the amount-in-words line.  [_create_amount_in_words] never returns a
    paragraph.  [locale.format_string] knows no directive [%a]: it finds
    no directive in the format, passes no argument on, and the final [%]
    of the unchanged format with an empty tuple raises TypeError (not
    enough arguments).  So the method raises TypeError whenever the total
    can be computed, and the exception of the sum otherwise; the store is
    unchanged in both cases.  This holds whatever [_format] and [%] with
    arguments do, which are never reached. *)
Theorem amount_in_words_never_returns
    (_format : list ascii -> pyval -> bool -> bool -> list pyval -> outcome string)
    (percent_args : string -> list string -> outcome string)
    (self : InvoiceGenerator) (h : heap) :
  (_create_amount_in_words _format percent_args self h).2 = h
  ∧ (_create_amount_in_words _format percent_args self h).1
    = match (_create_amount_in_words_total self h).1 with
      | Ok _ => Raises (Exc TypeError)
      | Raise e => Raises (Exc e)
      end.
Proof.
  unfold _create_amount_in_words.
  change (_create_amount_in_words_total self h) with (_create_total_row_total self h).
  rewrite total_row_total_run. cbn [fst snd]. split; [done|].
  by destruct (rbind (totals_of h (item_details self)) py_sum).
Qed.

(** Adding zero on either side. *)
Lemma add_zero_comm d : add d (of_int 0) = add (of_int 0) d.
Proof.
  destruct d as [s c e| |s [] p]; try reflexivity.
  cbn [add check_nans of_int]. unfold aligned_sum.
  rewrite (Z.min_comm e 0), (Z.add_comm (signed s _)), andb_false_r. reflexivity.
Qed.

Lemma spec_total_raise ds e :
  fold_left (fun acc d => rbind acc (fun a => add a d)) ds (Raise e) = Raise e.
Proof. by induction ds. Qed.

Lemma py_sum_from_spec a ds :
  rbind (py_sum_from (PDec a) ds) Decimal_new
  = fold_left (fun acc d => rbind acc (fun a => add a d)) ds (Ok a).
Proof.
  revert a. induction ds as [|d ds IH]; intros a; [done|].
  cbn [py_sum_from sum_step py_add fold_left rbind].
  destruct (add a d) as [r|e]; cbn [rbind]; [apply IH|by rewrite spec_total_raise].
Qed.

(** [sum] over the converted totals is the sum of the specification. *)
Lemma py_sum_spec ds : rbind (py_sum ds) Decimal_new = spec_grand_total ds.
Proof.
  unfold py_sum, spec_grand_total. destruct ds as [|d ds]; [done|].
  cbn [py_sum_from sum_step fold_left rbind]. rewrite add_zero_comm.
  destruct (add (of_int 0) d) as [r|e]; cbn [rbind];
    [apply py_sum_from_spec|by rewrite spec_total_raise].
Qed.

Lemma item_totals_read (h : heap) items totals :
  item_totals h items totals -> totals_of h items = Ok totals.
Proof.
  induction 1 as [|x d xs ds (v & Hv & Hd) _ IH]; [done|].
  cbn [totals_of]. by rewrite Hv; cbn [require rbind]; rewrite Hd; cbn [rbind]; rewrite IH.
Qed.

Lemma additions_fit_exact acc ds :
  additions_fit acc ds = true ->
  exists d, fold_left (fun acc d => rbind acc (fun a => add a d)) ds (Ok acc) = Ok d
    ∧ (to_Q d == to_Q acc + exact_sum ds)%Q.
Proof.
  revert acc. induction ds as [|d ds IH]; intros acc Hfit.
  - exists acc. split; [done|]. cbn [exact_sum fold_right]. ring.
  - cbn [additions_fit] in Hfit. apply andb_true_iff in Hfit as [Hs Hrest].
    destruct (add_exact acc d Hs) as (r & Hadd & _ & Hv).
    rewrite Hadd in Hrest. destruct (IH r Hrest) as (t & Ht & Htv).
    exists t. cbn [fold_left rbind]. rewrite Hadd. split; [done|].
    rewrite Htv, Hv. change (exact_sum (d :: ds)) with (to_Q d + exact_sum ds)%Q. ring.
Qed.

(** C3 (amended): the totals row and the amount-in-words line compute the
    same grand total, bit for bit: on any store both calls leave the store
    as it is and give the same value or the same exception.  When every
    item has a [total_amount] that converts, that value is the sum of the
    specification over the items' totals in item order (as a decimal: for
    an invoice without items it is the int 0), which is the exact sum of
    the totals whenever no addition needs rounding.  What the totals row
    displays of a finite total is that total rounded to two decimals: the
    text reads back as a decimal of the same sign with exponent -2 within
    0.005 of the total used for the amount-in-words line, and equal to it
    when that has at most two decimals. *)
Theorem grand_totals_agree_up_to_display (self : InvoiceGenerator) (h : heap) :
  (_create_total_row_total self h).2 = h
  ∧ (_create_amount_in_words_total self h).2 = h
  ∧ (_create_amount_in_words_total self h).1 = (_create_total_row_total self h).1
  ∧ (forall totals, item_totals h (item_details self) totals ->
       rbind (_create_amount_in_words_total self h).1 Decimal_new
       = spec_grand_total totals
       ∧ (additions_fit (of_int 0) totals = true ->
            exists d, spec_grand_total totals = Ok d
              ∧ (to_Q d == exact_sum totals)%Q))
  ∧ (forall s c e,
       (_create_amount_in_words_total self h).1 = Ok (PDec (DFin s c e)) ->
       exists text c',
         (_create_total_row self h).1
         = Returns [Paragraph "<b>TOTAL:</b>";
                    Spacer 1 (0.2 * inch)%float;
                    Paragraph ("<b>" ++ text ++ "</b>")]
         ∧ of_string text = Ok (DFin s c' (-2))
         ∧ (Qabs (to_Q (DFin s c' (-2)) - to_Q (DFin s c e)) <= 1 # 200)%Q
         ∧ (-2 <= e -> (to_Q (DFin s c' (-2)) == to_Q (DFin s c e))%Q)).
Proof.
  unfold _create_total_row.
  change (_create_amount_in_words_total self h) with (_create_total_row_total self h).
  rewrite total_row_total_run. cbn [fst snd].
  split; [done|]. split; [done|]. split; [done|]. split.
  - intros totals Htotals. rewrite (item_totals_read _ _ _ Htotals). cbn [rbind].
    split; [apply py_sum_spec|].
    intros Hfit. destruct (additions_fit_exact _ _ Hfit) as (d & Hd & Hv).
    exists d. split; [exact Hd|]. rewrite Hv. cbn. ring.
  - intros s c e ->. cbn [of_result obind format_total].
    exists (format_2f (DFin s c e)), (rescale c e (-2)).
    split; [done|]. split; [apply of_string_format_2f|].
    split; [apply rescale_value_error|apply rescale_exact_value].
Qed.

(** X12: the modelled steps of [generate_invoice], in its order, on ordinary
    inputs (string states and cities, items with a description and numeric
    unit price, quantity and discount below 10^1000, at most 100000
    items): the derived fields are computed, the table data and the totals
    row are built, the total being shown as a plain decimal with two
    places, and then the amount-in-words line raises TypeError. *)
Theorem ordinary_invoice_stops_at_amount_in_words
    (_format : list ascii -> pyval -> bool -> bool -> list pyval -> outcome string)
    (percent_args : string -> list string -> outcome string)
    (self : InvoiceGenerator) (h : heap) :
  jurisdiction_strings self h = true ->
  forallb (numeric_inputs h) (item_details self) = true ->
  (forall x, x ∈ item_details self -> is_Some (read h x "description")) ->
  (Z.of_nat (length (item_details self)) <= 100000)%Z ->
  exists h' rows text s c,
    _compute_item_details self h = (Ok tt, h')
    ∧ _create_item_details_table_data self h' = (Ok (table_header :: rows), h')
    ∧ _create_total_row self h'
      = (Returns [Paragraph "<b>TOTAL:</b>";
                  Spacer 1 (0.2 * inch)%float;
                  Paragraph ("<b>" ++ text ++ "</b>")], h')
    ∧ of_string text = Ok (DFin s c (-2))
    ∧ _create_amount_in_words _format percent_args self h'
      = (Raises (Exc TypeError), h').
Proof.
  intros Hj Hnum Hdesc Hlen.
  destruct (amounts_pipeline_run self h Hj Hnum Hdesc Hlen)
    as (h' & rows & total & Hrun & Htable & _ & Htotal & Hshape).
  assert (Hwords : _create_amount_in_words _format percent_args self h'
                   = (Raises (Exc TypeError), h')).
  { unfold _create_amount_in_words.
    change (_create_amount_in_words_total self h') with (_create_total_row_total self h').
    by rewrite Htotal. }
  assert (Hrow : exists text s c,
            _create_total_row self h'
            = (Returns [Paragraph "<b>TOTAL:</b>";
                        Spacer 1 (0.2 * inch)%float;
                        Paragraph ("<b>" ++ text ++ "</b>")], h')
            ∧ of_string text = Ok (DFin s c (-2))).
  { unfold _create_total_row. rewrite Htotal.
    destruct Hshape as [->|(d & -> & Hfin)].
    - by exists "0.00"%string, false, 0%N.
    - destruct d as [s c e| |]; [|done..].
      exists (format_2f (DFin s c e)), s, (rescale c e (-2)).
      split; [done|]. apply of_string_format_2f. }
  destruct Hrow as (text & s & c & Hrow & Hparse).
  by exists h', rows, text, s, c.
Qed.

End Display.

(** ** Concrete runs of the display *)

(** The script's invoice: the four totals add up to
    1240.550799999999996209298913, shown to two places. *)
Example total_row_of_the_script :
  (_create_total_row Sample.four
     (_compute_item_details Sample.four Sample.four_items).2).1
  = Returns [Paragraph "<b>TOTAL:</b>";
             Spacer 1 (0.2 * inch)%float;
             Paragraph "<b>1240.55</b>"].
Proof. vm_compute. reflexivity. Qed.

(** An invoice without items. *)
Example total_row_without_items :
  (_create_total_row (Sample.generator []) Sample.four_items).1
  = Returns [Paragraph "<b>TOTAL:</b>";
             Spacer 1 (0.2 * inch)%float;
             Paragraph "<b>0.00</b>"].
Proof. vm_compute. reflexivity. Qed.

(** The directives of [locale.format_string]: [%a] is none of them, and a
    format of known directives only is rewritten to [%s] throughout. *)
Example percent_a_is_no_directive :
  locale.finditer "%a" = [] ∧ locale.sub "%a" = "%a"%string
  ∧ locale.sub "%d items at %5.2f%%" = "%s items at %s%s"%string.
Proof. by vm_compute. Qed.

(** The four items of the script, with stand-ins for the two operations
    that are never reached. *)
Lemma ordinary_invoice_stops_at_amount_in_words_witness :
  exists h' rows text s c,
    _compute_item_details Sample.four Sample.four_items = (Ok tt, h')
    ∧ _create_item_details_table_data Sample.four h' = (Ok (table_header :: rows), h')
    ∧ _create_total_row Sample.four h'
      = (Returns [Paragraph "<b>TOTAL:</b>";
                  Spacer 1 (0.2 * inch)%float;
                  Paragraph ("<b>" ++ text ++ "</b>")], h')
    ∧ of_string text = Ok (DFin s c (-2))
    ∧ _create_amount_in_words
        (fun _ _ _ _ _ => Returns EmptyString) (fun _ _ => Returns EmptyString)
        Sample.four h'
      = (Raises (Exc TypeError), h').
Proof.
  apply (ordinary_invoice_stops_at_amount_in_words _ _ Sample.four Sample.four_items).
  - vm_compute. reflexivity.
  - vm_compute. reflexivity.
  - intros x Hx. apply list_elem_of_In in Hx. cbn in Hx.
    destruct Hx as [<-|[<-|[<-|[<-|[]]]]]; vm_compute; eauto.
  - vm_compute. discriminate.
Defined.

(** C3, as stated, fails: on the invoice of the script the totals row
    displays 1240.55, while the total used for the amount-in-words line is
    1240.550799999999996209298913. *)
Lemma displayed_total_is_not_the_total_in_words :
  let h' := (_compute_item_details Sample.four Sample.four_items).2 in
  (_create_total_row Sample.four h').1
  = Returns [Paragraph "<b>TOTAL:</b>";
             Spacer 1 (0.2 * inch)%float;
             Paragraph "<b>1240.55</b>"]
  ∧ of_string "1240.55" = Ok (DFin false 124055 (-2))
  ∧ (_create_amount_in_words_total Sample.four h').1
    = Ok (PDec (DFin false 1240550799999999996209298913 (-24)))
  ∧ ~ (to_Q (DFin false 124055 (-2))
       == to_Q (DFin false 1240550799999999996209298913 (-24)))%Q.
Proof.
  vm_compute. repeat split. discriminate.
Qed.

(** Two totals given to the cent: 586.53 + 33.75 is exact. *)
Lemma grand_totals_agree_up_to_display_witness :
  let totals := [DFin false 58653 (-2); DFin false 3375 (-2)] in
  (_create_amount_in_words_total Cases.two Cases.to_the_cent).1
  = (_create_total_row_total Cases.two Cases.to_the_cent).1
  ∧ rbind (_create_amount_in_words_total Cases.two Cases.to_the_cent).1 Decimal_new
    = spec_grand_total totals
  ∧ exists d, spec_grand_total totals = Ok d ∧ (to_Q d == exact_sum totals)%Q.
Proof.
  destruct (grand_totals_agree_up_to_display Cases.two Cases.to_the_cent)
    as (_ & _ & Hsame & Hsum & _).
  destruct (Hsum [DFin false 58653 (-2); DFin false 3375 (-2)]) as [Hspec Hexact].
  { constructor; [exists (PStr "586.53"); split; vm_compute; reflexivity|].
    constructor; [exists (PStr "33.75"); split; vm_compute; reflexivity|].
    constructor. }
  split; [exact Hsame|]. split; [exact Hspec|].
  apply Hexact. vm_compute. reflexivity.
Defined.
